(** * Prioritized experience replay with n-step aggregation

    A shallow embedding of [PrioritizedReplayBuffer] from [utils.py],
    followed by the plain [ReplayBuffer], [get_largest_ring_size] and
    [penalized_logp] of the same file; the rdkit descriptors the last two
    read off a molecule are parameters.

    Modelling choices.
    - Python ints ([capacity], [pos], [n_step], [batch_size], indices) are [Z].
    - Python and numpy floats are idealised as exact rationals [Q]: no
      rounding and no overflow.  Where numpy would produce a nan or an
      infinity (a zero divisor, a power outside its domain) the model has
      [None], and so it has for what is computed from one.  The
      conversion of the weights to a float32 tensor is left out.
    - The object's fields live in a record [Store]; a method is a
      computation in a small state-and-exception monad in which the state
      survives a raised exception, as Python's in-place mutation does.
    - [np.random.choice] is the only source of randomness; the indices it
      returns are an extra argument [draw] of [sample].
    - numpy's elementwise power is a parameter [npower] of [sample]. *)

From Stdlib Require Import ZArith QArith Qround Qpower Lia Lqa Bool.
From stdpp Require Import base tactics option list.

Local Open Scope Z_scope.

(** ** Python and numpy primitives *)

(** Exceptions the modelled code can raise. *)
Inductive exn : Type :=
| IndexError
| ValueError
| ZeroDivisionError.

Inductive result (A : Type) : Type :=
| Ok (a : A)
| Raise (e : exn).
Arguments Ok {A} a.
Arguments Raise {A} e.

(** [b if b < a else a] and [b if b > a else a]: the builtins [min(a, b)]
    and [max(a, b)] on two arguments. *)
Definition Qltb (x y : Q) : bool :=
  match (x ?= y)%Q with Lt => true | _ => false end.

Definition py_min (a b : Q) : Q := if Qltb b a then b else a.
Definition py_max (a b : Q) : Q := if Qltb a b then b else a.

(** Index normalisation shared by Python lists, deques and numpy arrays:
    [0 <= i < len] addresses slot [i], [-len <= i < 0] addresses slot
    [len + i], anything else is an [IndexError]. *)
Definition py_index (len : nat) (i : Z) : option nat :=
  if (0 <=? i) && (i <? Z.of_nat len) then Some (Z.to_nat i)
  else if (- Z.of_nat len <=? i) && (i <? 0) then Some (Z.to_nat (Z.of_nat len + i))
  else None.

(** [range(lo, hi)]. *)
Definition py_range (lo hi : Z) : list Z :=
  map (fun k : nat => lo + Z.of_nat k) (seq 0 (Z.to_nat (hi - lo))).

(** [deque(maxlen=m).append(x)]: the deque keeps the [m] most recent items. *)
Definition deque_append {A} (maxlen : nat) (d : list A) (x : A) : list A :=
  drop (length (d ++ [x]) - maxlen)%nat (d ++ [x]).

(** ** State-and-exception monad *)

Definition M (S A : Type) : Type := S -> result A * S.

Definition ret {S A} (a : A) : M S A := fun s => (Ok a, s).
Definition raise {S A} (e : exn) : M S A := fun s => (Raise e, s).
Definition bind {S A B} (m : M S A) (k : A -> M S B) : M S B :=
  fun s => match m s with
           | (Ok a, s') => k a s'
           | (Raise e, s') => (Raise e, s')
           end.
Definition gets {S A} (f : S -> A) : M S A := fun s => (Ok (f s), s).
Definition modify {S} (f : S -> S) : M S unit := fun s => (Ok tt, f s).

Declare Scope py_scope.
Delimit Scope py_scope with py.
Notation "x <- m ;; k" := (bind m (fun x => k))
  (at level 100, m at next level, right associativity) : py_scope.
Notation "m ;;; k" := (bind m (fun _ => k))
  (at level 100, right associativity) : py_scope.
Local Open Scope py_scope.

(** [for x in xs: acc = body(x, acc)]. *)
Fixpoint for_each {S A B} (xs : list A) (body : A -> B -> M S B) (acc : B) : M S B :=
  match xs with
  | [] => ret acc
  | x :: xs' => acc' <- body x acc ;; for_each xs' body acc'
  end.

(** [[f(x) for x in xs]]. *)
Fixpoint comprehension {S A B} (f : A -> M S B) (xs : list A) : M S (list B) :=
  match xs with
  | [] => ret []
  | x :: xs' => y <- f x ;; ys <- comprehension f xs' ;; ret (y :: ys)
  end.

(** [seq[i]] for a list, a deque or a numpy array. *)
Definition getitem {S A} (l : list A) (i : Z) : M S A :=
  match py_index (length l) i with
  | Some k => match l !! k with Some x => ret x | None => raise IndexError end
  | None => raise IndexError
  end.

(** The list after [seq[i] = x]. *)
Definition setitem {S A} (l : list A) (i : Z) (x : A) : M S (list A) :=
  match py_index (length l) i with
  | Some k => ret (<[k := x]> l)
  | None => raise IndexError
  end.

(** ** The buffer *)

Section Buffer.

Context {State Action : Type}.

(** An experience, the 5-tuple [(state, action, reward, next_state, done)]. *)
Record Transition : Type := mkTransition {
  state : State;
  action : Action;
  reward : Q;
  next_state : State;
  done : bool
}.

(** The fields of a [PrioritizedReplayBuffer] object.  A slot of [buffer]
    is [None] between [self.buffer.append(None)] and the assignment that
    follows it. *)
Record Store : Type := mkStore {
  capacity : Z;
  alpha : Q;
  beta : Q;
  beta_increment : Q;
  buffer : list (option Transition);
  priorities : list Q;
  pos : Z;
  max_priority : Q;
  n_step_buffer : list Transition
}.

Definition set_beta (b : Q) (s : Store) : Store :=
  mkStore (capacity s) (alpha s) b (beta_increment s) (buffer s)
          (priorities s) (pos s) (max_priority s) (n_step_buffer s).
Definition set_buffer (b : list (option Transition)) (s : Store) : Store :=
  mkStore (capacity s) (alpha s) (beta s) (beta_increment s) b
          (priorities s) (pos s) (max_priority s) (n_step_buffer s).
Definition set_priorities (p : list Q) (s : Store) : Store :=
  mkStore (capacity s) (alpha s) (beta s) (beta_increment s) (buffer s)
          p (pos s) (max_priority s) (n_step_buffer s).
Definition set_pos (p : Z) (s : Store) : Store :=
  mkStore (capacity s) (alpha s) (beta s) (beta_increment s) (buffer s)
          (priorities s) p (max_priority s) (n_step_buffer s).
Definition set_max_priority (p : Q) (s : Store) : Store :=
  mkStore (capacity s) (alpha s) (beta s) (beta_increment s) (buffer s)
          (priorities s) (pos s) p (n_step_buffer s).
Definition set_n_step_buffer (w : list Transition) (s : Store) : Store :=
  mkStore (capacity s) (alpha s) (beta s) (beta_increment s) (buffer s)
          (priorities s) (pos s) (max_priority s) w.

(** [__init__]: [np.zeros(capacity)] raises [ValueError] on a negative
    dimension; nothing else is validated. *)
Definition init (capacity : Z) (alpha beta beta_increment : Q) : result Store :=
  if capacity <? 0 then Raise ValueError
  else Ok (mkStore capacity alpha beta beta_increment []
                   (replicate (Z.to_nat capacity) 0%Q) 0 1%Q []).

(** [a % b] on ints. *)
Definition py_mod (a b : Z) : M Store Z :=
  if b =? 0 then raise ZeroDivisionError else ret (a mod b).

(** The loop under [# Calculate n-step reward]: [reward] starts as the
    newest experience's and takes in [window[i][2]] for [i] in
    [range(1, n_step - 1)]. *)
Definition n_step_reward (window : list Transition) (n_step : Z) (gamma : Q)
    (newest_reward : Q) : M Store Q :=
  for_each (py_range 1 (n_step - 1))
           (fun i acc => e <- getitem window i ;;
                         ret (reward e + gamma * acc)%Q)
           newest_reward.

(** The block under [# Store n-step transition]. *)
Definition store_transition (t : Transition) : M Store unit :=
  buf <- gets buffer ;;
  cap <- gets capacity ;;
  (if Z.of_nat (length buf) <? cap
   then modify (fun s => set_buffer (buffer s ++ [None]) s)
   else ret tt) ;;;
  buf <- gets buffer ;;
  cur <- gets pos ;;
  buf' <- setitem buf cur (Some t) ;;
  modify (set_buffer buf') ;;;
  prios <- gets priorities ;;
  cur <- gets pos ;;
  top <- gets max_priority ;;
  prios' <- setitem prios cur top ;;
  modify (set_priorities prios') ;;;
  cur <- gets pos ;;
  cap <- gets capacity ;;
  next <- py_mod (cur + 1) cap ;;
  modify (set_pos next).

(** [add(experience, n_step, gamma)]. *)
Definition add (experience : Transition) (n_step : Z) (gamma : Q) : M Store unit :=
  modify (fun s => set_n_step_buffer (deque_append 3 (n_step_buffer s) experience) s) ;;;
  window <- gets n_step_buffer ;;
  if Z.of_nat (length window) =? n_step then
    oldest <- getitem window 0 ;;
    newest <- getitem window (-1) ;;
    folded <- n_step_reward window n_step gamma (reward newest) ;;
    store_transition (mkTransition (state oldest) (action oldest) folded
                                   (next_state newest) (done newest))
  else ret tt.

(** [update_priorities(indices, priorities)]: one iteration of the loop,
    then the loop over [zip(indices, priorities)]. *)
Definition update_priority (idx : Z) (priority : Q) : M Store unit :=
  prios <- gets priorities ;;
  prios' <- setitem prios idx priority ;;
  modify (set_priorities prios') ;;;
  top <- gets max_priority ;;
  modify (set_max_priority (py_max top priority)).

Definition update_priorities (indices : list Z) (new_priorities : list Q) : M Store unit :=
  for_each (zip indices new_priorities)
           (fun '(idx, priority) _ => update_priority idx priority) tt.

(** A sequence of [add] calls, each with its own [n_step] and [gamma]. *)
Definition add_each (calls : list (Transition * Z * Q)) (s : Store) : Store :=
  foldl (fun s '(e, n_step, gamma) => snd (add e n_step gamma s)) s calls.

End Buffer.

Arguments Transition : clear implicits.
Arguments Store : clear implicits.

(** ** Sampling *)

(** Arithmetic on array entries; [None] is a nan or an infinity, or a
    value computed from one. *)
Definition fdiv (x y : option Q) : option Q :=
  match x, y with
  | Some a, Some b => if Qeq_bool b 0 then None else Some (a / b)%Q
  | _, _ => None
  end.

Definition fadd (x y : option Q) : option Q :=
  match x, y with
  | Some a, Some b => Some (a + b)%Q
  | _, _ => None
  end.

Definition fmax (x y : option Q) : option Q :=
  match x, y with
  | Some a, Some b => Some (py_max a b)
  | _, _ => None
  end.

(** [arr.sum()]. *)
Definition np_sum (arr : list (option Q)) : option Q :=
  foldl fadd (Some 0%Q) arr.

(** [arr.max()]: numpy refuses to reduce an empty array. *)
Definition np_max {S} (arr : list (option Q)) : M S (option Q) :=
  match arr with
  | [] => raise ValueError
  | x :: rest => ret (foldl fmax x rest)
  end.

Definition is_probability (p : option Q) : bool :=
  match p with
  | Some q => Qle_bool 0 q
  | None => false
  end.

(** The argument checks of [np.random.choice(n, size, p=probs)]: a size
    that is not negative, a population that is not empty unless no sample
    is asked for, one probability per member, each of them a number that
    is not negative.  That they sum to one needs no check here: the
    entries of [probs] are exact quotients by their total. *)
Definition choice_accepts (n : nat) (size : Z) (probs : list (option Q)) : bool :=
  (0 <=? size) && ((0 <? n)%nat || (size =? 0)) &&
  (length probs =? n)%nat && forallb is_probability probs.

(** [np.random.choice(n, size, p=probs)]: [ValueError] on arguments numpy
    rejects, else the indices drawn, which are the argument [draw]. *)
Definition random_choice {S} (n : nat) (size : Z) (probs : list (option Q))
    (draw : list Z) : M S (list Z) :=
  if choice_accepts n size probs then ret draw else raise ValueError.


Section Sample.

Context {State Action : Type}.
Variable npower : Q -> Q -> option Q.

Definition npower_opt (x : option Q) (y : Q) : option Q :=
  match x with Some a => npower a y | None => None end.

(** [probs] as [sample] computes it from the occupied part of the
    priority array. *)
Definition sampling_probs (s : Store State Action) : list (option Q) :=
  let priorities := take (length (buffer s)) (priorities s) in
  let probs := map (fun p => npower p (alpha s)) priorities in
  let total := np_sum probs in
  map (fun p => fdiv p total) probs.

(** [sample(batch_size)], with [draw] the outcome of the random choice. *)
Definition sample (batch_size : Z) (draw : list Z)
  : M (Store State Action) (list (option (Transition State Action)) * list Z * list (option Q)) :=
  buf <- gets buffer ;;
  if (length buf =? 0)%nat then ret ([], [], [])
  else
    probs <- gets sampling_probs ;;
    indices <- random_choice (length buf) batch_size probs draw ;;
    samples <- comprehension (getitem buf) indices ;;
    picked <- comprehension (getitem probs) indices ;;
    b <- gets beta ;;
    let weights :=
      map (fun p => npower_opt (option_map (Qmult (inject_Z (Z.of_nat (length buf)))) p)
                               (- b)%Q) picked in
    top <- np_max weights ;;
    let weights := map (fun w => fdiv w top) weights in
    inc <- gets beta_increment ;;
    modify (set_beta (py_min 1 (b + inc)%Q)) ;;;
    ret (samples, indices, weights).

(** ** Call sequences *)

Inductive op : Type :=
| Add (experience : Transition State Action) (n_step : Z) (gamma : Q)
| Sample (batch_size : Z) (draw : list Z)
| UpdatePriorities (indices : list Z) (new_priorities : list Q).

(** The object after one call, whether it returned or raised. *)
Definition step (s : Store State Action) (o : op) : Store State Action :=
  match o with
  | Add e n g => snd (add e n g s)
  | Sample b d => snd (sample b d s)
  | UpdatePriorities i p => snd (update_priorities i p s)
  end.

Definition run (s : Store State Action) (ops : list op) : Store State Action :=
  foldl step s ops.

(** Objects built by the constructor with a capacity of at least one and
    then only used through the three methods. *)
Inductive reachable : Store State Action -> Prop :=
| reachable_init cap a b inc s :
    1 <= cap -> init cap a b inc = Ok s -> reachable s
| reachable_step s o :
    reachable s -> reachable (step s o).

End Sample.

Arguments op : clear implicits.

(** ** The plain replay buffer *)

Module ReplayBuffer.

Section Plain.

Context {State Action : Type}.

(** The one field of a [ReplayBuffer] object, a deque, with the [maxlen]
    it was built with.  An experience is the 5-tuple
    [(obs_t, action, reward, obs_tp1, done)]. *)
Record Store : Type := mkStore {
  maxlen : nat;
  buffer : list (Transition State Action)
}.

(** [__init__]: [deque(maxlen=size)] refuses a negative [maxlen]. *)
Definition init (size : Z) : result Store :=
  if size <? 0 then Raise ValueError
  else Ok (mkStore (Z.to_nat size) []).

(** [add(obs_t, action, reward, obs_tp1, done)]. *)
Definition add (obs_t : State) (action : Action) (reward : Q) (obs_tp1 : State)
    (done : bool) : M Store unit :=
  modify (fun s => mkStore (maxlen s)
                     (deque_append (maxlen s) (buffer s)
                        (mkTransition obs_t action reward obs_tp1 done))).

(** [random.sample(population, k)]: [ValueError] when [k] is negative or
    larger than the population, else the items at the positions drawn,
    which are the argument [draw]. *)
Definition random_sample {S A} (population : list A) (k : Z) (draw : list Z)
  : M S (list A) :=
  if (k <? 0) || (Z.of_nat (length population) <? k) then raise ValueError
  else comprehension (getitem population) draw.

(** What [random.sample] can draw: [k] distinct positions of the
    population. *)
Definition possible_sample (n : nat) (k : Z) (draw : list Z) : Prop :=
  Z.of_nat (length draw) = k /\ NoDup draw /\
  Forall (fun i => 0 <= i < Z.of_nat n) draw.

(** [sample(batch_size)]: the five columns of the sampled experiences. *)
Definition sample (batch_size : Z) (draw : list Z)
  : M Store (list State * list Action * list Q * list State * list bool) :=
  population <- gets buffer ;;
  samples <- random_sample population batch_size draw ;;
  for_each samples
    (fun smp '(obs, act, rew, obs_tp1, dones) =>
       ret (obs ++ [state smp], act ++ [action smp], rew ++ [reward smp],
            obs_tp1 ++ [next_state smp], dones ++ [done smp]))
    ([], [], [], [], []).

(** [__len__]. *)
Definition len (s : Store) : nat := length (buffer s).

(** A sequence of [add] calls. *)
Definition add_each (experiences : list (Transition State Action)) (s : Store) : Store :=
  foldl (fun s e => snd (add (state e) (action e) (reward e) (next_state e) (done e) s))
        s experiences.

End Plain.

Arguments Store : clear implicits.

End ReplayBuffer.

(** ** Ring size and penalized logP *)

(** [b if b > a else a] on ints. *)
Definition py_max_int (a b : Z) : Z := if a <? b then b else a.

(** [max(xs)] for a list that is not empty. *)
Definition py_max_of (x : Z) (rest : list Z) : Z := foldl py_max_int x rest.

Section Molecule.

(** The molecule type and the three descriptors the code asks of rdkit
    and of the SA scorer. *)
Variable Mol : Type.
Variable AtomRings : Mol -> list (list Z).
Variable MolLogP : Mol -> Q.
Variable calculateScore : Mol -> Q.

(** [get_largest_ring_size(molecule)]. *)
Definition get_largest_ring_size (molecule : Mol) : Z :=
  let cycle_list := AtomRings molecule in
  match cycle_list with
  | [] => 0
  | j :: js => py_max_of (Z.of_nat (length j)) (map (fun j => Z.of_nat (length j)) js)
  end.

(** [penalized_logp(molecule)]. *)
Definition penalized_logp (molecule : Mol) : Q :=
  let log_p := MolLogP molecule in
  let sas_score := calculateScore molecule in
  let largest_ring_size := get_largest_ring_size molecule in
  let cycle_score := py_max_int (largest_ring_size - 6) 0 in
  (log_p - sas_score - inject_Z cycle_score)%Q.

End Molecule.

(** ** Concrete instances *)

(** An executable power for concrete runs.  It is exact when the exponent
    is an integer; for another exponent it takes the integer part, which
    keeps a positive base's power positive.  Zero to a negative power is
    numpy's infinity. *)
Definition npower_int (x y : Q) : option Q :=
  if Qeq_bool x 0 && (Qfloor y <? 0) then None
  else Some (Qpower x (Qfloor y)).

(** Experiences with natural numbers as state and action markers. *)
Definition marked (k : nat) (r : Q) : Transition nat nat :=
  mkTransition k (100 + k)%nat r (S k) false.

(** [PrioritizedReplayBuffer(4, alpha=1.0, beta=b, beta_increment=0.001)]. *)
Definition fresh_store (b : Q) : Store nat nat :=
  mkStore 4 1 b 0.001 [] (replicate 4 0%Q) 0 1 [].

(** The five calls of the scenario with [n_step = 2] and [gamma = 0.5]. *)
Definition scenario_calls : list (Transition nat nat * Z * Q) :=
  [(marked 1 1, 2, 0.5%Q); (marked 2 2, 2, 0.5%Q); (marked 3 3, 2, 0.5%Q);
   (marked 4 4, 2, 0.5%Q); (marked 5 5, 2, 0.5%Q)].

(** The same after three [add] calls with the default [n_step]: one
    occupied slot, a full window. *)
Definition warm_store (b : Q) : Store nat nat :=
  add_each [(marked 1 1, 3, 0.99%Q); (marked 2 2, 3, 0.99%Q); (marked 3 3, 3, 0.99%Q)]
           (fresh_store b).

(** A store two [add] calls old: nothing committed, two experiences
    pending. *)
Definition pending_store : Store nat nat :=
  add_each [(marked 1 1, 3, 0.99%Q); (marked 2 2, 3, 0.99%Q)] (fresh_store 0.4).

(** Calls that pass only positive priorities. *)
Definition positive_calls : list (op nat nat) :=
  [Add (marked 1 1) 3 0.99%Q; Add (marked 2 2) 3 0.99%Q; Add (marked 3 3) 3 0.99%Q;
   UpdatePriorities [0] [2%Q]; Sample 1 [0]].

(** The warm store after [update_priorities([0], [0.0])]. *)
Definition zeroed_store : Store nat nat :=
  snd (update_priorities [0] [0%Q] (warm_store 0.4)).

(** [PrioritizedReplayBuffer(4, alpha=0.0, beta=1.0)] after four [add]
    calls, which occupy two slots, and an update of the second slot: the
    priorities of the occupied slots are 1.0 and 7.0. *)
Definition uniform_store : Store nat nat :=
  snd (update_priorities [1] [7%Q]
         (add_each [(marked 1 1, 3, 0.99%Q); (marked 2 2, 3, 0.99%Q);
                    (marked 3 3, 3, 0.99%Q); (marked 4 4, 3, 0.99%Q)]
                   (mkStore 4 0 1 0.001 [] (replicate 4 0%Q) 0 1 []))).


(** [PrioritizedReplayBuffer(0)]. *)
Definition null_store : Store nat nat :=
  mkStore 0 1 0.4 0.001 [] [] 0 1 [].

(** Calls without [update_priorities]. *)
Definition plain_calls : list (op nat nat) :=
  [Add (marked 1 1) 3 0.99%Q; Add (marked 2 2) 3 0.99%Q; Add (marked 3 3) 3 0.99%Q;
   Sample 1 [0]; Add (marked 4 4) 3 0.99%Q].

(** [ReplayBuffer(2)] after three [add] calls. *)
Definition plain_store : ReplayBuffer.Store nat nat :=
  ReplayBuffer.add_each [marked 1 1; marked 2 2; marked 3 3] (ReplayBuffer.mkStore 2 []).

(** ** Invariants and closed forms *)

(** The ring invariant of a concrete store, by evaluation. *)
Ltac ring_inv_by_evaluation :=
  constructor; vm_compute; repeat split;
  first [ reflexivity | discriminate | intros _; reflexivity | intros H; discriminate H ].

Section Properties.

Context {State Action : Type}.
Implicit Types (s : Store State Action) (e t : Transition State Action).

(** [len(self.buffer)], the number of occupied slots. *)
Definition size s : nat := length (buffer s).

(** What the constructor establishes and the methods keep: a positive
    capacity, one priority per slot, the cursor inside the ring, and the
    cursor at the end of the list while the list still grows. *)
Record ring_inv s : Prop := {
  inv_capacity : 1 <= capacity s;
  inv_priorities : length (priorities s) = Z.to_nat (capacity s);
  inv_size : Z.of_nat (size s) <= capacity s;
  inv_pos : 0 <= pos s < capacity s;
  inv_warming : Z.of_nat (size s) < capacity s -> pos s = Z.of_nat (size s)
}.

(** The store after [t] is written at the cursor with the priority
    [max_priority] and the cursor moves on. *)
Definition committed t s : Store State Action :=
  let k := Z.to_nat (pos s) in
  mkStore (capacity s) (alpha s) (beta s) (beta_increment s)
          (<[k := Some t]> (if Z.of_nat (size s) <? capacity s
                            then buffer s ++ [None] else buffer s))
          (<[k := max_priority s]> (priorities s))
          ((pos s + 1) mod capacity s) (max_priority s) (n_step_buffer s).

(** The transition [add] builds from a window of one, two or three
    experiences. *)
Definition aggregate (gamma : Q) (w : list (Transition State Action))
  : option (Transition State Action) :=
  match w with
  | [a] => Some (mkTransition (state a) (action a) (reward a) (next_state a) (done a))
  | [a; b] => Some (mkTransition (state a) (action a) (reward b) (next_state b) (done b))
  | [a; b; c] => Some (mkTransition (state a) (action a) (reward b + gamma * reward c)%Q
                                    (next_state c) (done c))
  | _ => None
  end.

(** Every occupied slot has a positive priority, and so has the running
    maximum that seeds new slots. *)
Definition priorities_positive s : Prop :=
  (0 < max_priority s)%Q /\
  forall (i : nat) (p : Q), (i < size s)%nat -> priorities s !! i = Some p -> (0 < p)%Q.

(** The call, if it is an [update_priorities], passes positive priorities. *)
Definition positive_update (o : op State Action) : Prop :=
  match o with
  | UpdatePriorities indices ps => Forall (fun c => (0 < snd c)%Q) (zip indices ps)
  | _ => True
  end.

(** The computation [m] leaves the observation [f] of the state as it
    was, whether it returns or raises. *)
Definition keeps {S A B} (f : S -> B) (m : M S A) : Prop :=
  forall st, f (snd (m st)) = f st.

(** The call is not an [update_priorities]. *)
Definition no_update (o : op State Action) : Prop :=
  match o with
  | UpdatePriorities _ _ => False
  | _ => True
  end.

(** An index numpy rejects for an array of [capacity] entries. *)
Definition out_of_bounds s (idx : Z) : Prop :=
  idx < - capacity s \/ capacity s <= idx.

Lemma Qltb_lt (x y : Q) : Qltb x y = true <-> (x < y)%Q.
Proof.
  unfold Qltb. rewrite Qlt_alt. destruct (x ?= y)%Q; split; congruence.
Qed.

Lemma Qltb_ge (x y : Q) : Qltb x y = false <-> (y <= x)%Q.
Proof.
  rewrite <- not_true_iff_false, Qltb_lt. split; [apply Qnot_lt_le | apply Qle_not_lt].
Qed.

Lemma py_max_lt (a b : Q) : (a < b)%Q -> py_max a b = b.
Proof. intros H. unfold py_max. apply Qltb_lt in H. rewrite H. reflexivity. Qed.

Lemma py_max_ge_l (a b : Q) : (a <= py_max a b)%Q.
Proof.
  unfold py_max. destruct (Qltb a b) eqn:E.
  - apply Qltb_lt in E. apply Qlt_le_weak, E.
  - apply Qle_refl.
Qed.

Lemma py_max_ge_r (a b : Q) : (b <= py_max a b)%Q.
Proof.
  unfold py_max. destruct (Qltb a b) eqn:E.
  - apply Qle_refl.
  - apply Qltb_ge, E.
Qed.

Lemma py_max_cases (a b : Q) : py_max a b = a \/ py_max a b = b.
Proof. unfold py_max. destruct (Qltb a b); auto. Qed.

Lemma py_min_le_l (a b : Q) : (py_min a b <= a)%Q.
Proof.
  unfold py_min. destruct (Qltb b a) eqn:E.
  - apply Qltb_lt in E. apply Qlt_le_weak, E.
  - apply Qle_refl.
Qed.

Lemma py_min_ge (a b c : Q) : (c <= a)%Q -> (c <= b)%Q -> (c <= py_min a b)%Q.
Proof. intros Ha Hb. unfold py_min. destruct (Qltb b a); assumption. Qed.

Lemma py_index_inside (len : nat) (i : Z) :
  0 <= i < Z.of_nat len -> py_index len i = Some (Z.to_nat i).
Proof.
  intros [H0 H1]. unfold py_index.
  destruct (Z.leb_spec 0 i); [|lia]. destruct (Z.ltb_spec i (Z.of_nat len)); [|lia].
  reflexivity.
Qed.

Lemma py_index_negative (len : nat) (i : Z) :
  - Z.of_nat len <= i < 0 -> py_index len i = Some (Z.to_nat (Z.of_nat len + i)).
Proof.
  intros [H0 H1]. unfold py_index.
  destruct (Z.leb_spec 0 i); [lia|]. cbn [andb].
  destruct (Z.leb_spec (- Z.of_nat len) i); [|lia]. destruct (Z.ltb_spec i 0); [|lia].
  reflexivity.
Qed.

Lemma py_index_outside (len : nat) (i : Z) :
  i < - Z.of_nat len \/ Z.of_nat len <= i -> py_index len i = None.
Proof.
  intros H. unfold py_index.
  destruct (Z.leb_spec 0 i), (Z.ltb_spec i (Z.of_nat len)),
    (Z.leb_spec (- Z.of_nat len) i), (Z.ltb_spec i 0); cbn [andb]; try reflexivity; lia.
Qed.

Lemma py_index_bound (len : nat) (i : Z) (k : nat) :
  py_index len i = Some k -> (k < len)%nat.
Proof.
  unfold py_index.
  destruct (Z.leb_spec 0 i), (Z.ltb_spec i (Z.of_nat len)),
    (Z.leb_spec (- Z.of_nat len) i), (Z.ltb_spec i 0); cbn [andb];
    intros [= <-]; lia.
Qed.

Lemma deque_append_length {A} (m : nat) (d : list A) (x : A) :
  length (deque_append m d x) = Nat.min m (S (length d)).
Proof.
  unfold deque_append. rewrite length_drop, length_app. cbn. lia.
Qed.

Lemma deque_append_short {A} (m : nat) (d : list A) (x : A) :
  (length d < m)%nat -> deque_append m d x = d ++ [x].
Proof.
  intros H. unfold deque_append. rewrite length_app. cbn.
  replace (length d + 1 - m)%nat with 0%nat by lia. reflexivity.
Qed.

(** Whatever the window was, after the append it ends with the new
    experience and holds one, two or three of them. *)
Lemma deque_append_shape {A} (d : list A) (x : A) :
  deque_append 3 d x = [x] \/
  (exists a, deque_append 3 d x = [a; x]) \/
  (exists a b, deque_append 3 d x = [a; b; x]).
Proof.
  pose proof (deque_append_length 3 d x) as Hlen.
  assert (Hlast : last (deque_append 3 d x) = Some x).
  { rewrite last_lookup, Hlen. unfold deque_append.
    rewrite lookup_drop, length_app. change (length [x]) with 1%nat.
    replace (length d + 1 - 3 + Nat.pred (Nat.min 3 (S (length d))))%nat
      with (length d) by lia.
    apply list_lookup_middle. reflexivity. }
  destruct (deque_append 3 d x) as [|a [|b [|c [|? ?]]]]; cbn [length] in Hlen; cbn in Hlast.
  - lia.
  - left. congruence.
  - right. left. exists a. congruence.
  - right. right. exists a, b. congruence.
  - lia.
Qed.

(** Frame rules of the monad. *)
Lemma keeps_ret {S A B} (f : S -> B) (a : A) : keeps f (ret a).
Proof. intros s. reflexivity. Qed.

Lemma keeps_raise {S A B} (f : S -> B) (err : exn) : keeps f (raise (A := A) err).
Proof. intros s. reflexivity. Qed.

Lemma keeps_gets {S A B} (f : S -> B) (g : S -> A) : keeps f (gets g).
Proof. intros s. reflexivity. Qed.

Lemma keeps_modify {S B} (f : S -> B) (g : S -> S) :
  (forall st, f (g st) = f st) -> keeps f (modify g).
Proof. intros Hg s. apply Hg. Qed.

Lemma keeps_bind {S A A' B} (f : S -> B) (m : M S A) (k : A -> M S A') :
  keeps f m -> (forall a, keeps f (k a)) -> keeps f (bind m k).
Proof.
  intros Hm Hk s. unfold bind. specialize (Hm s).
  destruct (m s) as [[a|err] s1]; cbn [snd] in *.
  - rewrite Hk. exact Hm.
  - exact Hm.
Qed.

Lemma keeps_for_each {S A C B} (f : S -> B) (xs : list A) (body : A -> C -> M S C) :
  (forall x acc, keeps f (body x acc)) -> forall acc, keeps f (for_each xs body acc).
Proof.
  intros Hbody. induction xs as [|x xs IH]; intros acc; cbn [for_each].
  - apply keeps_ret.
  - apply keeps_bind; [apply Hbody | exact IH].
Qed.

Lemma keeps_getitem {S A B} (f : S -> B) (l : list A) (i : Z) : keeps f (getitem l i).
Proof.
  unfold getitem. destruct (py_index (length l) i) as [k|]; [|apply keeps_raise].
  destruct (l !! k); [apply keeps_ret | apply keeps_raise].
Qed.

Lemma keeps_setitem {S A B} (f : S -> B) (l : list A) (i : Z) (x : A) :
  keeps f (setitem l i x).
Proof.
  unfold setitem. destruct (py_index (length l) i); [apply keeps_ret | apply keeps_raise].
Qed.

(** [add] writes the window, the ring, the priority array and the cursor,
    and nothing else, also when it raises. *)
Lemma add_keeps {B} (f : Store State Action -> B) e (n : Z) (g : Q) :
  (forall w s, f (set_n_step_buffer w s) = f s) ->
  (forall b s, f (set_buffer b s) = f s) ->
  (forall p s, f (set_priorities p s) = f s) ->
  (forall p s, f (set_pos p s) = f s) ->
  keeps f (add e n g).
Proof.
  intros Hwindow Hbuffer Hprio Hpos. unfold add.
  apply keeps_bind; [apply keeps_modify; intros s; apply Hwindow|]. intros _.
  apply keeps_bind; [apply keeps_gets|]. intros window.
  destruct (Z.of_nat (length window) =? n); [|apply keeps_ret].
  apply keeps_bind; [apply keeps_getitem|]. intros oldest.
  apply keeps_bind; [apply keeps_getitem|]. intros newest.
  apply keeps_bind.
  { apply keeps_for_each. intros i acc.
    apply keeps_bind; [apply keeps_getitem|]. intros x. apply keeps_ret. }
  intros folded. unfold store_transition.
  repeat first
    [ apply keeps_gets | apply keeps_ret | apply keeps_setitem
    | apply keeps_modify; intros s; first [apply Hbuffer | apply Hprio | apply Hpos]
    | apply keeps_bind; [|intros ?]
    | match goal with |- keeps _ (if ?c then _ else _) => destruct c end
    | unfold py_mod ].
  all: apply keeps_raise.
Qed.

Lemma store_transition_spec t s :
  ring_inv s -> store_transition t s = (Ok tt, committed t s).
Proof.
  intros [Hcap Hprio Hsize Hpos Hwarm]. unfold size in *.
  unfold store_transition, committed, bind, modify, gets, setitem, py_mod, ret, size.
  destruct (Z.ltb_spec (Z.of_nat (length (buffer s))) (capacity s)) as [Hlt | Hge];
    cbn [buffer set_buffer pos capacity priorities set_priorities max_priority].
  - specialize (Hwarm Hlt).
    rewrite py_index_inside by (rewrite length_app; cbn [length]; lia).
    cbn [buffer set_buffer pos capacity priorities set_priorities max_priority].
    rewrite py_index_inside by lia.
    cbn [buffer set_buffer pos capacity priorities set_priorities max_priority].
    destruct (Z.eqb_spec (capacity s) 0); [lia|]. reflexivity.
  - rewrite py_index_inside by lia.
    cbn [buffer set_buffer pos capacity priorities set_priorities max_priority].
    rewrite py_index_inside by lia.
    cbn [buffer set_buffer pos capacity priorities set_priorities max_priority].
    destruct (Z.eqb_spec (capacity s) 0); [lia|]. reflexivity.
Qed.

Lemma add_spec e (n : Z) (g : Q) s :
  ring_inv s ->
  let s1 := set_n_step_buffer (deque_append 3 (n_step_buffer s) e) s in
  add e n g s =
    (Ok tt, if Z.of_nat (length (n_step_buffer s1)) =? n
            then match aggregate g (n_step_buffer s1) with
                 | Some t => committed t s1
                 | None => s1
                 end
            else s1).
Proof.
  intros Hinv s1. subst s1.
  assert (Hinv1 : forall w, ring_inv (set_n_step_buffer w s))
    by (intros w; destruct Hinv; constructor; assumption).
  unfold add, bind at 1 2, modify, gets. cbn [n_step_buffer set_n_step_buffer].
  destruct (deque_append_shape (n_step_buffer s) e) as [-> | [[a ->] | [a [b ->]]]];
    cbn [length];
    match goal with
    | |- context [?x =? n] => destruct (Z.eqb_spec x n) as [<- | _]; [|reflexivity]
    end.
  all: unfold bind, getitem, n_step_reward; cbn; apply store_transition_spec, Hinv1.
Qed.

(** Reading the store after a commit. *)
Lemma committed_lookup t s :
  ring_inv s ->
  buffer (committed t s) !! Z.to_nat (pos s) = Some (Some t) /\
  priorities (committed t s) !! Z.to_nat (pos s) = Some (max_priority s) /\
  (forall j : nat, j <> Z.to_nat (pos s) -> (j < size s)%nat ->
     buffer (committed t s) !! j = buffer s !! j) /\
  size (committed t s) = (if Z.of_nat (size s) <? capacity s then S (size s) else size s) /\
  pos (committed t s) = (pos s + 1) mod capacity s.
Proof.
  intros [Hcap Hprio Hsize Hpos Hwarm]. unfold size in *.
  unfold committed, size; cbn [buffer priorities pos].
  destruct (Z.ltb_spec (Z.of_nat (length (buffer s))) (capacity s)) as [Hlt | Hge].
  - specialize (Hwarm Hlt). repeat split.
    + apply list_lookup_insert_eq. rewrite length_app. cbn [length]. lia.
    + apply list_lookup_insert_eq. lia.
    + intros j Hj Hlen. rewrite list_lookup_insert_ne by lia.
      apply lookup_app_l. assumption.
    + rewrite length_insert, length_app. cbn [length]. lia.
  - repeat split.
    + apply list_lookup_insert_eq. lia.
    + apply list_lookup_insert_eq. lia.
    + intros j Hj Hlen. apply list_lookup_insert_ne. lia.
    + apply length_insert.
Qed.

Lemma committed_ring_inv t s : ring_inv s -> ring_inv (committed t s).
Proof.
  intros [Hcap Hprio Hsize Hpos Hwarm]. unfold size in *.
  assert (Hmod : 0 <= (pos s + 1) mod capacity s < capacity s)
    by (apply Z.mod_pos_bound; lia).
  constructor; unfold size; cbn [committed capacity priorities buffer pos].
  - assumption.
  - rewrite length_insert. assumption.
  - rewrite length_insert. unfold size.
    destruct (Z.ltb_spec (Z.of_nat (length (buffer s))) (capacity s));
      [rewrite length_app; cbn [length]|]; lia.
  - assumption.
  - rewrite length_insert. unfold size.
    destruct (Z.ltb_spec (Z.of_nat (length (buffer s))) (capacity s)) as [Hlt | Hge];
      [rewrite length_app; cbn [length] | lia].
    intros Hlt'. rewrite (Hwarm Hlt). rewrite Z.mod_small; lia.
Qed.

Lemma set_n_step_buffer_ring_inv w s : ring_inv s -> ring_inv (set_n_step_buffer w s).
Proof. intros []; constructor; assumption. Qed.

Lemma add_ring_inv e n g s : ring_inv s -> ring_inv (snd (add e n g s)).
Proof.
  intros Hinv. rewrite add_spec by assumption. cbn [snd].
  repeat case_match; auto using committed_ring_inv, set_n_step_buffer_ring_inv.
Qed.

(** One iteration of the loop of [update_priorities] in closed form. *)
Lemma update_priority_spec (idx : Z) (p : Q) s :
  update_priority idx p s =
    match py_index (length (priorities s)) idx with
    | Some k => (Ok tt, set_max_priority (py_max (max_priority s) p)
                          (set_priorities (<[k := p]> (priorities s)) s))
    | None => (Raise IndexError, s)
    end.
Proof.
  unfold update_priority, bind, gets, modify, setitem.
  destruct (py_index (length (priorities s)) idx); reflexivity.
Qed.

Lemma update_priorities_cons (idx : Z) (p : Q) (indices : list Z) (ps : list Q) s :
  update_priorities (idx :: indices) (p :: ps) s =
    match update_priority idx p s with
    | (Ok _, s') => update_priorities indices ps s'
    | (Raise e, s') => (Raise e, s')
    end.
Proof.
  unfold update_priorities. cbn [zip_with for_each]. unfold bind at 1.
  destruct (update_priority idx p s) as [[[]|err] s']; reflexivity.
Qed.

Lemma update_priority_ring_inv idx p s :
  ring_inv s -> ring_inv (snd (update_priority idx p s)).
Proof.
  intros Hinv. rewrite update_priority_spec.
  destruct (py_index _ idx); cbn [snd]; [|assumption].
  destruct Hinv. constructor; cbn; try assumption. rewrite length_insert. assumption.
Qed.

(** A property kept by every iteration holds after the whole loop, also
    when the loop is left by an exception; [R] is what is known of the
    pairs the loop sees. *)
Lemma update_priorities_preserves_on (R : Z -> Q -> Prop) (P : Store State Action -> Prop) :
  (forall idx p s, R idx p -> P s -> P (snd (update_priority idx p s))) ->
  forall indices ps s,
    Forall (fun c => R (fst c) (snd c)) (zip indices ps) ->
    P s -> P (snd (update_priorities indices ps s)).
Proof.
  intros Hstep indices. induction indices as [|idx indices IH]; intros ps s Hall Hs.
  - exact Hs.
  - destruct ps as [|p ps]; [exact Hs|].
    cbn [zip_with] in Hall. apply Forall_cons in Hall as [Hr Hall]. cbn [fst snd] in Hr.
    rewrite update_priorities_cons. specialize (Hstep idx p s Hr Hs).
    destruct (update_priority idx p s) as [[[]|err] s']; cbn [snd] in *; auto.
Qed.

Lemma update_priorities_preserves (P : Store State Action -> Prop) :
  (forall idx p s, P s -> P (snd (update_priority idx p s))) ->
  forall indices ps s, P s -> P (snd (update_priorities indices ps s)).
Proof.
  intros Hstep indices ps s.
  apply (update_priorities_preserves_on (fun _ _ => True)); [auto|].
  apply Forall_forall. auto.
Qed.

Lemma comprehension_getitem_state {A} (l : list A) (indices : list Z) s :
  snd (comprehension (getitem l) indices s) = s.
Proof.
  induction indices as [|i indices IH]; [reflexivity|].
  cbn [comprehension]. unfold bind at 1. unfold getitem at 1.
  destruct (py_index (length l) i) as [k|]; [|reflexivity].
  destruct (l !! k); [|reflexivity]. unfold ret at 1.
  unfold bind. destruct (comprehension (getitem l) indices s) as [[ys|err] s'];
    cbn [snd] in *; assumption.
Qed.

End Properties.

Section SampleProperties.

Context {State Action : Type}.
Variable npower : Q -> Q -> option Q.
Implicit Types (s : Store State Action).

(** [sample] writes no field but [beta], and writes it exactly when it
    returns from a store that is not empty. *)
Lemma sample_state (batch_size : Z) (draw : list Z) s :
  match sample npower batch_size draw s with
  | (Ok v, s') =>
      if (size s =? 0)%nat then s' = s /\ v = ([], [], [])
      else s' = set_beta (py_min 1 (beta s + beta_increment s)%Q) s
  | (Raise e, s') => s' = s /\ size s <> 0%nat
  end.
Proof.
  unfold sample, size, bind at 1, gets at 1.
  destruct (Nat.eqb_spec (length (buffer s)) 0) as [Hz | Hnz]; [split; reflexivity|].
  unfold bind at 1, gets at 1. unfold bind at 1, random_choice.
  destruct (choice_accepts _ _ _); [|split; [reflexivity | assumption]]. unfold ret at 1.
  unfold bind at 1.
  pose proof (comprehension_getitem_state (buffer s) draw s) as H1.
  destruct (comprehension (getitem (buffer s)) draw s) as [[samples|err] s1];
    cbn [snd] in H1; subst s1; [|split; [reflexivity | assumption]].
  unfold bind at 1.
  pose proof (comprehension_getitem_state (sampling_probs npower s) draw s) as H2.
  destruct (comprehension (getitem (sampling_probs npower s)) draw s) as [[picked|err] s2];
    cbn [snd] in H2; subst s2; [|split; [reflexivity | assumption]].
  unfold bind at 1, gets at 1. unfold bind at 1, np_max.
  destruct (map _ picked) as [|w ws]; [split; [reflexivity | assumption]|].
  reflexivity.
Qed.

End SampleProperties.

(** ** Reachable stores keep the ring invariant *)

Section Reachability.

Context {State Action : Type}.
Variable npower : Q -> Q -> option Q.
Implicit Types (s : Store State Action) (o : op State Action).

Lemma init_ring_inv (cap : Z) (a b inc : Q) s :
  1 <= cap -> init cap a b inc = Ok s -> ring_inv s.
Proof.
  intros Hcap. unfold init. destruct (Z.ltb_spec cap 0); [lia|].
  intros [= <-]. constructor; unfold size; cbn; try lia.
  apply length_replicate.
Qed.

Lemma update_priorities_ring_inv indices ps s :
  ring_inv s -> ring_inv (snd (update_priorities indices ps s)).
Proof.
  apply update_priorities_preserves. intros idx p s'. apply update_priority_ring_inv.
Qed.

Lemma sample_ring_inv batch_size draw s :
  ring_inv s -> ring_inv (snd (sample npower batch_size draw s)).
Proof.
  intros Hinv. pose proof (sample_state npower batch_size draw s) as H.
  destruct (sample npower batch_size draw s) as [[v|err] s']; cbn [snd].
  - destruct (size s =? 0)%nat; [destruct H as [-> _]; assumption|].
    subst s'. destruct Hinv; constructor; assumption.
  - destruct H as [-> _]. assumption.
Qed.

Lemma step_ring_inv s o : ring_inv s -> ring_inv (step npower s o).
Proof.
  destruct o; cbn [step];
    auto using add_ring_inv, sample_ring_inv, update_priorities_ring_inv.
Qed.

Lemma run_ring_inv ops s : ring_inv s -> ring_inv (run npower s ops).
Proof.
  revert s. induction ops as [|o ops IH]; intros s Hinv; [assumption|].
  apply IH, step_ring_inv, Hinv.
Qed.

Lemma reachable_ring_inv s : reachable npower s -> ring_inv s.
Proof.
  induction 1 as [cap a b inc s Hcap Hinit | s o _ IH].
  - eapply init_ring_inv; eassumption.
  - apply step_ring_inv, IH.
Qed.

(** No method but [add] touches the window, and [add] keeps a full
    window full. *)
Lemma update_priorities_window indices ps s :
  n_step_buffer (snd (update_priorities indices ps s)) = n_step_buffer s.
Proof.
  apply (update_priorities_preserves (fun s' => n_step_buffer s' = n_step_buffer s));
    [|reflexivity].
  intros idx p s' Hs'. rewrite update_priority_spec.
  destruct (py_index _ idx); cbn [snd]; assumption.
Qed.

Lemma sample_window batch_size draw s :
  n_step_buffer (snd (sample npower batch_size draw s)) = n_step_buffer s.
Proof.
  pose proof (sample_state npower batch_size draw s) as H.
  destruct (sample npower batch_size draw s) as [[v|err] s']; cbn [snd].
  - destruct (size s =? 0)%nat; [destruct H as [-> _]|subst s']; reflexivity.
  - destruct H as [-> _]. reflexivity.
Qed.

Lemma add_window e n g s :
  ring_inv s ->
  n_step_buffer (snd (add e n g s)) = deque_append 3 (n_step_buffer s) e.
Proof.
  intros Hinv. rewrite add_spec by assumption. cbn [snd].
  repeat case_match; reflexivity.
Qed.

Lemma step_window_full s o :
  ring_inv s -> length (n_step_buffer s) = 3%nat ->
  length (n_step_buffer (step npower s o)) = 3%nat.
Proof.
  intros Hinv Hfull. destruct o; cbn [step].
  - rewrite add_window, deque_append_length by assumption. lia.
  - rewrite sample_window. assumption.
  - rewrite update_priorities_window. assumption.
Qed.

Lemma run_window_full ops s :
  ring_inv s -> length (n_step_buffer s) = 3%nat ->
  length (n_step_buffer (run npower s ops)) = 3%nat.
Proof.
  revert s. induction ops as [|o ops IH]; intros s Hinv Hfull; [assumption|].
  apply IH; [apply step_ring_inv | apply step_window_full]; assumption.
Qed.

End Reachability.

(** ** n-step aggregation in [add] *)

Section AddClaims.

Context {State Action : Type}.
Implicit Types (s : Store State Action) (e : Transition State Action).

(** C1. With the default [n_step = 3], an [add] that leaves the window
    with fewer than three experiences only appends to the window: the
    ring, the priorities and the cursor are as before.  The [add] that
    brings the window to three experiences [e0; e1; e] returns after
    writing, at the cursor, the transition with the state and action of
    [e0], the next state and done flag of [e], and the reward
    [reward e1 + gamma * reward e]; the reward of [e0] is not used.
    Stores are taken to satisfy the ring invariant, which every store
    built with a capacity of at least one satisfies. *)
Theorem C1_add_default_window e (gamma : Q) s :
  ring_inv s ->
  ((length (n_step_buffer s) < 2)%nat ->
     add e 3 gamma s = (Ok tt, set_n_step_buffer (n_step_buffer s ++ [e]) s) /\
     buffer (snd (add e 3 gamma s)) = buffer s /\
     priorities (snd (add e 3 gamma s)) = priorities s /\
     pos (snd (add e 3 gamma s)) = pos s) /\
  (forall e0 e1, n_step_buffer s = [e0; e1] ->
     let t := mkTransition (state e0) (action e0) (reward e1 + gamma * reward e)%Q
                           (next_state e) (done e) in
     add e 3 gamma s = (Ok tt, committed t (set_n_step_buffer [e0; e1; e] s)) /\
     buffer (snd (add e 3 gamma s)) !! Z.to_nat (pos s) = Some (Some t) /\
     (forall j : nat, j <> Z.to_nat (pos s) -> (j < size s)%nat ->
        buffer (snd (add e 3 gamma s)) !! j = buffer s !! j)).
Proof.
  intros Hinv. split.
  - intros Hshort. rewrite add_spec by assumption.
    rewrite deque_append_short by lia. cbn [n_step_buffer set_n_step_buffer].
    rewrite length_app. cbn [length].
    destruct (Z.eqb_spec (Z.of_nat (length (n_step_buffer s) + 1)) 3); [lia|].
    repeat split.
  - intros e0 e1 Hw t. rewrite add_spec by assumption. rewrite Hw.
    cbn [deque_append length app drop Nat.sub n_step_buffer set_n_step_buffer
         Z.of_nat Pos.of_succ_nat Pos.succ Z.eqb Pos.eqb aggregate snd].
    pose proof (committed_lookup t (set_n_step_buffer [e0; e1; e] s)
                  (set_n_step_buffer_ring_inv _ s Hinv)) as (Hslot & _ & Hother & _).
    repeat split; assumption.
Qed.

(** C2. With [n_step = 3] the window is never cleared: from a store whose
    window holds three experiences, after any further calls, the window
    still holds three, [w0; w1; w2], and an [add] of [e] returns after
    committing one transition, built from [w1; w2; e], at the cursor; the
    window is then [w1; w2; e]. *)
Theorem C2_sliding_window (npower : Q -> Q -> option Q) s
    (ops : list (op State Action)) e (gamma : Q) :
  ring_inv s ->
  length (n_step_buffer s) = 3%nat ->
  let s1 := run npower s ops in
  exists w0 w1 w2,
    n_step_buffer s1 = [w0; w1; w2] /\
    let t := mkTransition (state w1) (action w1) (reward w2 + gamma * reward e)%Q
                          (next_state e) (done e) in
    add e 3 gamma s1 = (Ok tt, committed t (set_n_step_buffer [w1; w2; e] s1)) /\
    buffer (snd (add e 3 gamma s1)) !! Z.to_nat (pos s1) = Some (Some t) /\
    pos (snd (add e 3 gamma s1)) = (pos s1 + 1) mod capacity s1 /\
    n_step_buffer (snd (add e 3 gamma s1)) = [w1; w2; e].
Proof.
  intros Hinv Hfull s1.
  assert (Hinv1 : ring_inv s1) by (apply run_ring_inv; assumption).
  assert (Hfull1 : length (n_step_buffer s1) = 3%nat)
    by (apply run_window_full; assumption).
  destruct (n_step_buffer s1) as [|w0 [|w1 [|w2 [|? ?]]]] eqn:Hw; try discriminate.
  exists w0, w1, w2. split; [reflexivity|]. intros t.
  rewrite add_spec by assumption. rewrite Hw.
  cbn [deque_append length app drop Nat.sub n_step_buffer set_n_step_buffer
       Z.of_nat Pos.of_succ_nat Pos.succ Z.eqb Pos.eqb aggregate snd].
  pose proof (committed_lookup t (set_n_step_buffer [w1; w2; e] s1)
                (set_n_step_buffer_ring_inv _ s1 Hinv1)) as (Hslot & _ & _ & _ & Hpos).
  repeat split; assumption.
Qed.

Lemma add_large_n_step e (n_step : Z) (gamma : Q) s :
  4 <= n_step ->
  add e n_step gamma s =
    (Ok tt, set_n_step_buffer (deque_append 3 (n_step_buffer s) e) s).
Proof.
  intros Hn. unfold add, bind at 1 2, modify, gets.
  cbn [n_step_buffer set_n_step_buffer].
  pose proof (deque_append_length 3 (n_step_buffer s) e) as Hlen.
  destruct (Z.eqb_spec (Z.of_nat (length (deque_append 3 (n_step_buffer s) e))) n_step);
    [lia | reflexivity].
Qed.

(** C10. An [add] called with [n_step >= 4] never commits: the window
    holds at most three experiences, so its length is never [n_step].
    After any number of such calls the ring, the priority array, the
    cursor and the size are what they were, and one more such call
    returns having changed the window only. *)
Theorem C10_large_n_step_never_commits s
    (calls : list (Transition State Action * Z * Q)) e (n_step : Z) (gamma : Q) :
  Forall (fun c => 4 <= snd (fst c)) calls ->
  4 <= n_step ->
  let s1 := add_each calls s in
  buffer s1 = buffer s /\
  priorities s1 = priorities s /\
  pos s1 = pos s /\
  size s1 = size s /\
  add e n_step gamma s1 =
    (Ok tt, set_n_step_buffer (deque_append 3 (n_step_buffer s1) e) s1).
Proof.
  intros Hall Hn s1. subst s1.
  repeat split; try (apply add_large_n_step; assumption).
  all: revert s; induction calls as [|[[e' n'] g'] calls IH]; intros s; [reflexivity|].
  all: apply Forall_cons in Hall as [Hn' Hall]; cbn [fst snd] in Hn'.
  all: unfold add_each; cbn [foldl]; fold (add_each calls (snd (add e' n' g' s))).
  all: rewrite add_large_n_step by assumption; cbn [snd].
  all: rewrite (IH Hall); reflexivity.
Qed.

End AddClaims.

(** ** The scenario with [n_step = 2] *)

(** C3, as the code behaves.  With capacity 4, [n_step = 2] and
    [gamma = 0.5], five [add] calls with rewards 1 to 5: the first call
    commits nothing; the second commits the state and action of the first
    experience with the reward 2 of the second; the window then holds
    three experiences, never two again, so the third, fourth and fifth
    calls commit nothing, and at the end the size is 1 and the cursor is
    at slot 1. *)
Theorem C3_scenario_n_step_2 {State Action : Type} (a b inc : Q)
    (s0 : Store State Action) (t1 t2 t3 t4 t5 : Transition State Action) :
  init 4 a b inc = Ok s0 ->
  reward t1 = 1%Q -> reward t2 = 2%Q -> reward t3 = 3%Q ->
  reward t4 = 4%Q -> reward t5 = 5%Q ->
  let s1 := snd (add t1 2 0.5 s0) in
  let s2 := snd (add t2 2 0.5 s1) in
  let s3 := snd (add t3 2 0.5 s2) in
  let s4 := snd (add t4 2 0.5 s3) in
  let s5 := snd (add t5 2 0.5 s4) in
  buffer s1 = [] /\
  buffer s2 = [Some (mkTransition (state t1) (action t1) 2 (next_state t2) (done t2))] /\
  pos s2 = 1 /\
  buffer s3 = buffer s2 /\ buffer s4 = buffer s2 /\ buffer s5 = buffer s2 /\
  size s5 = 1%nat /\ pos s5 = 1 /\
  priorities s5 = [1%Q; 0%Q; 0%Q; 0%Q] /\
  n_step_buffer s5 = [t3; t4; t5].
Proof.
  intros [= <-] _ H2 _ _ _. vm_compute. vm_compute in H2. rewrite H2. repeat split.
Qed.

(** C3, as the specification states it, fails: after the five calls the size is
    not 4 and the cursor is not back at slot 0, and the third call has
    committed nothing. *)
Lemma C3_counterexample :
  init 4 1 0.4 0.001 = Ok (fresh_store 0.4) /\
  size (add_each (take 2 scenario_calls) (fresh_store 0.4)) = 1%nat /\
  size (add_each (take 3 scenario_calls) (fresh_store 0.4)) = 1%nat /\
  size (add_each scenario_calls (fresh_store 0.4)) = 1%nat /\
  pos (add_each scenario_calls (fresh_store 0.4)) = 1 /\
  ~ (size (add_each scenario_calls (fresh_store 0.4)) = 4%nat /\
     pos (add_each scenario_calls (fresh_store 0.4)) = 0).
Proof.
  repeat split. intros [H _]. vm_compute in H. discriminate.
Qed.

(** ** Priority updates *)

Section UpdateClaims.

Context {State Action : Type}.
Implicit Types (s : Store State Action) (e : Transition State Action).

Lemma aggregate_deque_append (gamma : Q) (w : list (Transition State Action)) e :
  exists t, aggregate gamma (deque_append 3 w e) = Some t.
Proof.
  destruct (deque_append_shape w e) as [-> | [[a ->] | [a [b ->]]]];
    cbn [aggregate]; eauto.
Qed.

(** C5. [update_priorities] handles the pairs in order: the first pair
    [(idx, p)], with [idx] addressing slot [k], overwrites
    [priorities[k]] with [p] and sets [max_priority] to
    [max(max_priority, p)], and the remaining pairs are handled from the
    store so obtained.  Consequently, after [update_priorities([idx], [p])]
    with [p] above the current [max_priority], an [add] that commits
    returns with [p] as the priority of the slot it has written. *)
Theorem C5_update_then_seed s (idx : Z) (k : nat) (p : Q)
    (indices : list Z) (ps : list Q) e (n_step : Z) (gamma : Q) :
  ring_inv s ->
  py_index (length (priorities s)) idx = Some k ->
  let s1 := set_max_priority (py_max (max_priority s) p)
              (set_priorities (<[k := p]> (priorities s)) s) in
  update_priorities (idx :: indices) (p :: ps) s = update_priorities indices ps s1 /\
  update_priorities [idx] [p] s = (Ok tt, s1) /\
  priorities s1 !! k = Some p /\
  max_priority s1 = py_max (max_priority s) p /\
  ((max_priority s < p)%Q ->
   Z.of_nat (length (deque_append 3 (n_step_buffer s) e)) = n_step ->
   max_priority s1 = p /\
   fst (add e n_step gamma s1) = Ok tt /\
   priorities (snd (add e n_step gamma s1)) !! Z.to_nat (pos s1) = Some p).
Proof.
  intros Hinv Hidx s1.
  assert (Hone : update_priority idx p s = (Ok tt, s1))
    by (rewrite update_priority_spec, Hidx; reflexivity).
  assert (Hinv1 : ring_inv s1).
  { replace s1 with (snd (update_priority idx p s)) by (rewrite Hone; reflexivity).
    apply update_priority_ring_inv, Hinv. }
  split; [rewrite update_priorities_cons, Hone; reflexivity|].
  split; [rewrite update_priorities_cons, Hone; reflexivity|].
  split; [apply list_lookup_insert_eq, (py_index_bound _ idx), Hidx|].
  split; [reflexivity|].
  intros Hlt Hn.
  assert (Hmax : max_priority s1 = p) by (apply py_max_lt, Hlt).
  split; [exact Hmax|].
  rewrite add_spec by assumption. cbn [fst snd n_step_buffer set_n_step_buffer].
  split; [reflexivity|].
  change (n_step_buffer s1) with (n_step_buffer s).
  destruct (Z.eqb_spec (Z.of_nat (length (deque_append 3 (n_step_buffer s) e))) n_step);
    [|contradiction].
  destruct (aggregate_deque_append gamma (n_step_buffer s) e) as [t ->].
  pose proof (committed_lookup t (set_n_step_buffer (deque_append 3 (n_step_buffer s) e) s1)
                (set_n_step_buffer_ring_inv _ s1 Hinv1)) as (_ & Hprio & _).
  etransitivity; [exact Hprio | f_equal; exact Hmax].
Qed.

(** C9, as the code behaves.  The priority array has [capacity] entries
    and is indexed the numpy way, whatever the number of occupied slots:
    [update_priorities] raises [IndexError] exactly when some pair it
    reaches has an index below [-capacity] or at least [capacity], and
    otherwise returns; a single index in [[-capacity, capacity)] is
    written at slot [idx mod capacity]. *)
Theorem C9_update_priorities_bounds s (indices : list Z) (ps : list Q) :
  ring_inv s ->
  (Exists (fun c => out_of_bounds s (fst c)) (zip indices ps) ->
     fst (update_priorities indices ps s) = Raise IndexError) /\
  (Forall (fun c => ~ out_of_bounds s (fst c)) (zip indices ps) ->
     fst (update_priorities indices ps s) = Ok tt) /\
  (forall (idx : Z) (p : Q),
     out_of_bounds s idx -> update_priorities [idx] [p] s = (Raise IndexError, s)) /\
  (forall (idx : Z) (p : Q),
     ~ out_of_bounds s idx ->
     update_priorities [idx] [p] s =
       (Ok tt, set_max_priority (py_max (max_priority s) p)
                 (set_priorities (<[Z.to_nat (idx mod capacity s) := p]> (priorities s)) s))).
Proof.
  intros Hinv.
  assert (Hout : forall s' idx p, ring_inv s' -> out_of_bounds s' idx ->
            update_priority idx p s' = (Raise IndexError, s')).
  { intros s' idx p [Hcap Hprio _ _ _] Hbad. rewrite update_priority_spec.
    rewrite py_index_outside; [reflexivity|]. unfold out_of_bounds in Hbad.
    rewrite Hprio. lia. }
  assert (Hin : forall s' idx p, ring_inv s' -> ~ out_of_bounds s' idx ->
            update_priority idx p s' =
              (Ok tt, set_max_priority (py_max (max_priority s') p)
                        (set_priorities (<[Z.to_nat (idx mod capacity s') := p]>
                                           (priorities s')) s'))).
  { intros s' idx p [Hcap Hprio _ _ _] Hgood. rewrite update_priority_spec.
    unfold out_of_bounds in Hgood. destruct (Z.lt_ge_cases idx 0) as [Hneg | Hnn].
    - rewrite py_index_negative by (rewrite Hprio; lia).
      replace (idx mod capacity s') with (Z.of_nat (length (priorities s')) + idx);
        [reflexivity|].
      rewrite Hprio, Z2Nat.id by lia.
      apply Z.mod_unique with (q := -1); lia.
    - rewrite py_index_inside by (rewrite Hprio; lia).
      rewrite Z.mod_small by lia. reflexivity. }
  split; [|split; [|split]].
  - revert ps s Hinv. induction indices as [|idx indices IH]; intros ps s Hinv Hex.
    + cbn in Hex. inversion Hex.
    + destruct ps as [|p ps]; [cbn in Hex; inversion Hex|].
      cbn [zip_with] in Hex. rewrite update_priorities_cons.
      assert (out_of_bounds s idx \/ ~ out_of_bounds s idx) as [Hbad | Hgood]
        by (unfold out_of_bounds; lia).
      * rewrite Hout by assumption. reflexivity.
      * apply Exists_cons in Hex as [Hbad | Hex]; [contradiction|].
        rewrite Hin by assumption. apply IH.
        -- destruct Hinv. constructor; cbn; try assumption.
           rewrite length_insert. assumption.
        -- exact Hex.
  - revert ps s Hinv. induction indices as [|idx indices IH]; intros ps s Hinv Hall.
    + reflexivity.
    + destruct ps as [|p ps]; [reflexivity|].
      cbn [zip_with] in Hall. apply Forall_cons in Hall as [Hgood Hall].
      cbn [fst] in Hgood. rewrite update_priorities_cons, Hin by assumption.
      apply IH; [|exact Hall].
      destruct Hinv. constructor; cbn; try assumption.
      rewrite length_insert. assumption.
  - intros idx p Hbad. rewrite update_priorities_cons, Hout by assumption. reflexivity.
  - intros idx p Hgood. rewrite update_priorities_cons, Hin by assumption. reflexivity.
Qed.

End UpdateClaims.

(** C9, as the specification states it, fails: with one occupied slot out of
    four, the indices 1 and -1 are outside [[0, size)], yet
    [update_priorities] returns and has written slots 1 and 3. *)
Lemma C9_counterexample :
  size (warm_store 0.4) = 1%nat /\
  capacity (warm_store 0.4) = 4 /\
  fst (update_priorities [1; -1] [5%Q; 7%Q] (warm_store 0.4)) = Ok tt /\
  priorities (snd (update_priorities [1; -1] [5%Q; 7%Q] (warm_store 0.4))) =
    [1%Q; 5%Q; 0%Q; 7%Q] /\
  fst (update_priorities [1; -1] [5%Q; 7%Q] (warm_store 0.4)) <> Raise IndexError.
Proof.
  repeat split. discriminate.
Qed.

(** ** Positive priorities *)

Section PriorityClaims.

Context {State Action : Type}.
Variable npower : Q -> Q -> option Q.
Implicit Types (s : Store State Action) (o : op State Action).

Lemma committed_priorities_positive (t : Transition State Action) s :
  ring_inv s -> priorities_positive s -> priorities_positive (committed t s).
Proof.
  intros Hinv [Htop Hall].
  pose proof (committed_lookup t s Hinv) as (_ & _ & _ & Hsize & _).
  destruct Hinv as [Hcap Hprio Hsz Hpos Hwarm].
  split; [exact Htop|]. intros i p Hi. rewrite Hsize in Hi.
  cbn [committed priorities].
  destruct (decide (i = Z.to_nat (pos s))) as [-> | Hne].
  - rewrite list_lookup_insert_eq by lia. intros [= <-]. exact Htop.
  - rewrite list_lookup_insert_ne by congruence. apply Hall.
    destruct (Z.ltb_spec (Z.of_nat (size s)) (capacity s)) as [Hlt | Hge]; [|exact Hi].
    specialize (Hwarm Hlt). lia.
Qed.

Lemma add_priorities_positive (e : Transition State Action) (n : Z) (g : Q) s :
  ring_inv s -> priorities_positive s -> priorities_positive (snd (add e n g s)).
Proof.
  intros Hinv Hpos. rewrite add_spec by assumption. cbn [snd].
  repeat case_match; try exact Hpos.
  apply committed_priorities_positive;
    [apply set_n_step_buffer_ring_inv, Hinv | exact Hpos].
Qed.

Lemma update_priority_priorities_positive (idx : Z) (p : Q) s :
  (0 < p)%Q -> priorities_positive s -> priorities_positive (snd (update_priority idx p s)).
Proof.
  intros Hp [Htop Hall]. rewrite update_priority_spec.
  destruct (py_index (length (priorities s)) idx) as [k|] eqn:Hk; cbn [snd];
    [|split; assumption].
  split.
  - cbn. destruct (py_max_cases (max_priority s) p) as [-> | ->]; assumption.
  - intros i q Hi. cbn [set_max_priority set_priorities priorities].
    destruct (decide (i = k)) as [-> | Hne].
    + rewrite list_lookup_insert_eq by (eapply py_index_bound, Hk).
      intros [= <-]. exact Hp.
    + rewrite list_lookup_insert_ne by congruence. apply Hall, Hi.
Qed.

Lemma step_priorities_positive s o :
  positive_update o ->
  ring_inv s /\ priorities_positive s ->
  ring_inv (step npower s o) /\ priorities_positive (step npower s o).
Proof.
  intros Ho [Hinv Hpos]. split; [apply step_ring_inv, Hinv|].
  destruct o as [e n g | b d | indices ps]; cbn [step positive_update] in *.
  - apply add_priorities_positive; assumption.
  - pose proof (sample_state npower b d s) as H.
    destruct (sample npower b d s) as [[v|err] s']; cbn [snd].
    + destruct (size s =? 0)%nat; [destruct H as [-> _]|subst s']; exact Hpos.
    + destruct H as [-> _]. exact Hpos.
  - revert Hpos.
    apply (update_priorities_preserves_on (fun _ p => (0 < p)%Q));
      [|exact Ho].
    intros idx p s' Hp. apply update_priority_priorities_positive, Hp.
Qed.

(** C8, as the code behaves.  [update_priorities] stores whatever it is
    given, so positivity is kept only as long as the priorities passed to
    it are positive: from a store built with a capacity of at least one,
    after any sequence of [add], [sample] and [update_priorities] calls
    in which every priority passed is positive, every occupied slot has
    a positive priority. *)
Theorem C8_priorities_stay_positive (cap : Z) (a b inc : Q) s0
    (ops : list (op State Action)) (i : nat) (p : Q) :
  1 <= cap ->
  init cap a b inc = Ok s0 ->
  Forall positive_update ops ->
  (i < size (run npower s0 ops))%nat ->
  priorities (run npower s0 ops) !! i = Some p ->
  (0 < p)%Q.
Proof.
  intros Hcap Hinit Hops.
  assert (H0 : ring_inv s0 /\ priorities_positive s0).
  { split; [eapply init_ring_inv; eassumption|].
    unfold init in Hinit. destruct (cap <? 0); [discriminate|].
    injection Hinit as <-. split; [reflexivity|]. cbn. intros j q Hj. lia. }
  clear Hinit. revert s0 H0.
  induction ops as [|o ops IH]; intros s0 H0.
  - cbn [run foldl]. destruct H0 as [_ [_ Hall]]. apply Hall.
  - apply Forall_cons in Hops as [Ho Hops]. cbn [run foldl].
    apply (IH Hops). apply step_priorities_positive; assumption.
Qed.

End PriorityClaims.

(** C8, as the specification states it, fails: the store reached by three [add]
    calls and [update_priorities([0], [0.0])] has one occupied slot, and
    its priority is 0. *)
Lemma C8_counterexample :
  reachable npower_int zeroed_store /\
  size zeroed_store = 1%nat /\
  priorities zeroed_store !! 0%nat = Some 0%Q /\
  ~ (0 < 0)%Q.
Proof.
  split; [|repeat split; discriminate].
  apply (reachable_step npower_int _ (UpdatePriorities [0] [0%Q])).
  apply (reachable_step npower_int _ (Add (marked 3 3) 3 0.99%Q)).
  apply (reachable_step npower_int _ (Add (marked 2 2) 3 0.99%Q)).
  apply (reachable_step npower_int _ (Add (marked 1 1) 3 0.99%Q)).
  apply (reachable_init npower_int 4 1 0.4 0.001); [lia | reflexivity].
Qed.

(** ** Sampling: the empty store and the annealing of [beta] *)

Section BetaClaims.

Context {State Action : Type}.
Variable npower : Q -> Q -> option Q.
Implicit Types (s : Store State Action) (o : op State Action).

(** C7. On an empty store [sample] returns three empty lists for every
    [batch_size], raises nothing and leaves every field, [beta] included,
    as it was. *)
Theorem C7_sample_empty_store (batch_size : Z) (draw : list Z) s :
  size s = 0%nat ->
  sample npower batch_size draw s = (Ok ([], [], []), s).
Proof.
  intros Hempty. unfold sample, bind, gets. unfold size in Hempty.
  rewrite Hempty. reflexivity.
Qed.

(** Only [sample] writes [beta], and nothing writes [beta_increment]. *)
Lemma step_beta s o :
  beta_increment (step npower s o) = beta_increment s /\
  (beta (step npower s o) = beta s \/
   beta (step npower s o) = py_min 1 (beta s + beta_increment s)%Q).
Proof.
  destruct o as [e n g | b d | indices ps]; cbn [step].
  - split; [|left]; apply add_keeps; reflexivity.
  - pose proof (sample_state npower b d s) as H.
    destruct (sample npower b d s) as [[v|err] s']; cbn [snd].
    + destruct (size s =? 0)%nat; [destruct H as [-> _]|subst s']; auto.
    + destruct H as [-> _]. auto.
  - assert (H : beta_increment (snd (update_priorities indices ps s)) = beta_increment s /\
                beta (snd (update_priorities indices ps s)) = beta s).
    { apply (update_priorities_preserves
               (fun s' => beta_increment s' = beta_increment s /\ beta s' = beta s));
        [|split; reflexivity].
      intros idx p s' Hs'. rewrite update_priority_spec.
      destruct (py_index _ idx); cbn [snd]; exact Hs'. }
    destruct H as [-> ->]. auto.
Qed.

Lemma step_beta_bounds s o :
  (beta s <= 1)%Q -> (0 <= beta_increment s)%Q ->
  (beta s <= beta (step npower s o))%Q /\ (beta (step npower s o) <= 1)%Q.
Proof.
  intros Hle Hinc. destruct (step_beta s o) as [_ [-> | ->]].
  - split; [apply Qle_refl | exact Hle].
  - split; [apply py_min_ge; [exact Hle | lra] | apply py_min_le_l].
Qed.

Lemma run_beta_bounds (ops : list (op State Action)) s :
  (beta s <= 1)%Q -> (0 <= beta_increment s)%Q ->
  beta_increment (run npower s ops) = beta_increment s /\
  (beta s <= beta (run npower s ops))%Q /\ (beta (run npower s ops) <= 1)%Q.
Proof.
  revert s. induction ops as [|o ops IH]; intros s Hle Hinc.
  - cbn. split; [reflexivity|]. split; [apply Qle_refl | exact Hle].
  - cbn [run foldl]. fold (run npower (step npower s o) ops).
    destruct (step_beta s o) as [Hsame _].
    destruct (step_beta_bounds s o Hle Hinc) as [Hup Hone].
    destruct (IH (step npower s o)) as (Hinc' & Hlo & Hhi);
      [exact Hone | rewrite Hsame; exact Hinc |].
    split; [congruence|]. split; [eapply Qle_trans; eassumption | exact Hhi].
Qed.

(** C6, as the code behaves.  For a store with [beta <= 1.0] and
    [beta_increment >= 0]: after any calls [beta] is at least what it was
    and at most 1.0, no call lowers it, and a [sample] call on a store
    that is not empty sets it to [min(1.0, beta + beta_increment)] when
    the call returns and leaves it alone when the call raises. *)
Theorem C6_beta_annealing s (ops : list (op State Action)) o :
  (beta s <= 1)%Q ->
  (0 <= beta_increment s)%Q ->
  let s1 := run npower s ops in
  let s2 := step npower s1 o in
  (beta s <= beta s1)%Q /\
  (beta s1 <= beta s2)%Q /\
  (beta s2 <= 1)%Q /\
  (forall batch_size draw,
     o = Sample batch_size draw -> size s1 <> 0%nat ->
     match fst (sample npower batch_size draw s1) with
     | Ok _ => beta s2 = py_min 1 (beta s1 + beta_increment s)%Q
     | Raise _ => beta s2 = beta s1
     end).
Proof.
  intros Hle Hinc s1 s2.
  destruct (run_beta_bounds ops s Hle Hinc) as (Hinc1 & Hlo & Hhi).
  fold s1 in Hinc1, Hlo, Hhi.
  destruct (step_beta_bounds s1 o Hhi) as [Hup Hone];
    [rewrite Hinc1; exact Hinc|].
  repeat split; try assumption.
  intros batch_size draw -> Hne. subst s2. cbn [step].
  pose proof (sample_state npower batch_size draw s1) as H.
  destruct (sample npower batch_size draw s1) as [[v|err] s']; cbn [fst snd].
  - destruct (Nat.eqb_spec (size s1) 0); [contradiction|]. subst s'.
    cbn [beta set_beta]. rewrite Hinc1. reflexivity.
  - destruct H as [-> _]. reflexivity.
Qed.

End BetaClaims.

(** C6, as the specification states it, fails: [sample(0)] on a store with one
    occupied slot, [beta = 0.4] and [beta_increment = 0.001] raises
    [ValueError] at the maximum of the empty weight array, before the
    line that anneals [beta], and the store is as before. *)
Lemma C6_counterexample :
  reachable npower_int (warm_store 0.4) /\
  size (warm_store 0.4) = 1%nat /\
  (0 < beta_increment (warm_store 0.4))%Q /\
  (beta (warm_store 0.4) < 1)%Q /\
  sample npower_int 0 [] (warm_store 0.4) = (Raise ValueError, warm_store 0.4) /\
  beta (step npower_int (warm_store 0.4) (Sample 0 [])) = beta (warm_store 0.4).
Proof.
  split; [|repeat split].
  apply (reachable_step npower_int _ (Add (marked 3 3) 3 0.99%Q)).
  apply (reachable_step npower_int _ (Add (marked 2 2) 3 0.99%Q)).
  apply (reachable_step npower_int _ (Add (marked 1 1) 3 0.99%Q)).
  apply (reachable_init npower_int 4 1 0.4 0.001); [lia | reflexivity].
Qed.

(** ** Importance weights *)

Section WeightClaims.

Context {State Action : Type}.
Variable npower : Q -> Q -> option Q.
Implicit Types (s : Store State Action).




Lemma foldl_py_max_ge (x : Q) (l : list Q) :
  Forall (fun y => (y <= foldl py_max x l)%Q) (x :: l).
Proof.
  revert x. induction l as [|y l IH]; intros x.
  - constructor; [apply Qle_refl | constructor].
  - cbn [foldl]. specialize (IH (py_max x y)).
    apply Forall_cons in IH as [Htop Hrest].
    constructor; [|constructor; [|exact Hrest]].
    + eapply Qle_trans; [apply py_max_ge_l | exact Htop].
    + eapply Qle_trans; [apply py_max_ge_r | exact Htop].
Qed.





End WeightClaims.

(** ** The theorems at concrete stores *)


Lemma fresh_store_ring_inv (b : Q) : ring_inv (fresh_store b).
Proof. ring_inv_by_evaluation. Qed.

Lemma pending_store_ring_inv : ring_inv pending_store.
Proof. ring_inv_by_evaluation. Qed.

Lemma warm_store_ring_inv (b : Q) : ring_inv (warm_store b).
Proof. ring_inv_by_evaluation. Qed.

Lemma C1_add_default_window_witness :
  ring_inv pending_store /\
  n_step_buffer pending_store = [marked 1 1; marked 2 2] /\
  buffer pending_store = [] /\
  buffer (snd (add (marked 3 3) 3 0.99 pending_store)) !! 0%nat =
    Some (Some (mkTransition 1%nat 101%nat (2 + 0.99 * 3)%Q 4%nat false)).
Proof.
  split; [exact pending_store_ring_inv|]. split; [reflexivity|]. split; [reflexivity|].
  destruct (C1_add_default_window (marked 3 3) 0.99 pending_store pending_store_ring_inv)
    as [_ Hcommit].
  destruct (Hcommit (marked 1 1) (marked 2 2) eq_refl) as (_ & Hslot & _).
  exact Hslot.
Defined.

Lemma C2_sliding_window_witness :
  ring_inv (warm_store 0.4) /\
  length (n_step_buffer (warm_store 0.4)) = 3%nat /\
  n_step_buffer
    (snd (add (marked 5 5) 3 0.99
            (run npower_int (warm_store 0.4) [Add (marked 4 4) 3 0.99%Q; Sample 1 [0]]))) =
    [marked 3 3; marked 4 4; marked 5 5].
Proof.
  split; [exact (warm_store_ring_inv 0.4)|]. split; [reflexivity|].
  destruct (C2_sliding_window npower_int (warm_store 0.4)
              [Add (marked 4 4) 3 0.99%Q; Sample 1 [0]] (marked 5 5) 0.99
              (warm_store_ring_inv 0.4) eq_refl)
    as (w0 & w1 & w2 & Hw & _ & _ & _ & Hafter).
  rewrite Hafter. vm_compute in Hw. injection Hw as _ <- <-. reflexivity.
Defined.

Lemma C3_scenario_n_step_2_witness :
  size (add_each scenario_calls (fresh_store 0.4)) = 1%nat /\
  pos (add_each scenario_calls (fresh_store 0.4)) = 1.
Proof.
  pose proof (C3_scenario_n_step_2 1 0.4 0.001 (fresh_store 0.4)
                (marked 1 1) (marked 2 2) (marked 3 3) (marked 4 4) (marked 5 5)
                eq_refl eq_refl eq_refl eq_refl eq_refl eq_refl) as H.
  cbv zeta in H. destruct H as (_ & _ & _ & _ & _ & _ & Hsize & Hpos & _).
  split; [exact Hsize | exact Hpos].
Defined.




Lemma C5_update_then_seed_witness :
  ring_inv (warm_store 0.4) /\
  py_index (length (priorities (warm_store 0.4))) 0 = Some 0%nat /\
  (max_priority (warm_store 0.4) < 2)%Q /\
  priorities
    (snd (add (marked 4 4) 3 0.99
            (snd (update_priorities [0%Z] [2%Q] (warm_store 0.4))))) !! 1%nat = Some 2%Q.
Proof.
  split; [exact (warm_store_ring_inv 0.4)|]. split; [reflexivity|]. split; [reflexivity|].
  destruct (C5_update_then_seed (warm_store 0.4) 0 0%nat 2 [] [] (marked 4 4) 3 0.99
              (warm_store_ring_inv 0.4) eq_refl)
    as (_ & Hupd & _ & _ & Hseed).
  destruct (Hseed eq_refl eq_refl) as (_ & _ & Hslot).
  rewrite Hupd. exact Hslot.
Defined.

Lemma C6_beta_annealing_witness :
  (beta (warm_store 0.4) <= 1)%Q /\
  (0 <= beta_increment (warm_store 0.4))%Q /\
  (beta (warm_store 0.4) <=
     beta (step npower_int (run npower_int (warm_store 0.4) [Sample 1%Z [0%Z]])
             (Sample 2%Z [0%Z; 0%Z])))%Q /\
  (beta (step npower_int (run npower_int (warm_store 0.4) [Sample 1%Z [0%Z]])
          (Sample 2%Z [0%Z; 0%Z]))
     <= 1)%Q.
Proof.
  assert (Hle : (beta (warm_store 0.4) <= 1)%Q) by discriminate.
  assert (Hinc : (0 <= beta_increment (warm_store 0.4))%Q) by discriminate.
  split; [exact Hle|]. split; [exact Hinc|].
  destruct (C6_beta_annealing npower_int (warm_store 0.4) [Sample 1 [0]] (Sample 2 [0; 0])
              Hle Hinc) as (H1 & H2 & H3 & _).
  split; [eapply Qle_trans; [exact H1 | exact H2] | exact H3].
Defined.

Lemma C7_sample_empty_store_witness :
  size (fresh_store 0.4) = 0%nat /\
  sample npower_int 5 [] (fresh_store 0.4) = (Ok ([], [], []), fresh_store 0.4).
Proof.
  split; [reflexivity|].
  apply (C7_sample_empty_store npower_int 5 [] (fresh_store 0.4)). reflexivity.
Defined.

Lemma C8_priorities_stay_positive_witness :
  init 4 1 1 0.001 = Ok (fresh_store 1) /\
  Forall positive_update positive_calls /\
  priorities (run npower_int (fresh_store 1) positive_calls) !! 0%nat = Some 2%Q /\
  (0 < 2)%Q.
Proof.
  assert (Hops : Forall positive_update positive_calls).
  { repeat constructor. }
  split; [reflexivity|]. split; [exact Hops|]. split; [reflexivity|].
  apply (C8_priorities_stay_positive npower_int 4 1 1 0.001 (fresh_store 1)
           positive_calls 0%nat 2%Q).
  - lia.
  - reflexivity.
  - exact Hops.
  - vm_compute. lia.
  - reflexivity.
Defined.

Lemma C9_update_priorities_bounds_witness :
  ring_inv (warm_store 0.4) /\
  size (warm_store 0.4) = 1%nat /\
  update_priorities [4] [2%Q] (warm_store 0.4) = (Raise IndexError, warm_store 0.4) /\
  fst (update_priorities [3; -1] [2%Q; 5%Q] (warm_store 0.4)) = Ok tt.
Proof.
  split; [exact (warm_store_ring_inv 0.4)|]. split; [reflexivity|].
  destruct (C9_update_priorities_bounds (warm_store 0.4) [3; -1] [2%Q; 5%Q]
              (warm_store_ring_inv 0.4)) as (_ & Hin & Hout & _).
  split.
  - apply Hout. unfold out_of_bounds.
    change (capacity (warm_store 0.4)) with 4. lia.
  - apply Hin. repeat constructor; unfold out_of_bounds;
      change (capacity (warm_store 0.4)) with 4; cbn [fst]; lia.
Defined.

Lemma C10_large_n_step_never_commits_witness :
  Forall (fun c : Transition nat nat * Z * Q => 4 <= snd (fst c))
         [(marked 1 1, 4, 0.99%Q); (marked 2 2, 4, 0.99%Q);
          (marked 3 3, 4, 0.99%Q); (marked 4 4, 4, 0.99%Q)] /\
  buffer (add_each [(marked 1 1, 4, 0.99%Q); (marked 2 2, 4, 0.99%Q);
                    (marked 3 3, 4, 0.99%Q); (marked 4 4, 4, 0.99%Q)]
                   (fresh_store 0.4)) = [].
Proof.
  assert (Hall : Forall (fun c : Transition nat nat * Z * Q => 4 <= snd (fst c))
                        [(marked 1 1, 4, 0.99%Q); (marked 2 2, 4, 0.99%Q);
                         (marked 3 3, 4, 0.99%Q); (marked 4 4, 4, 0.99%Q)]).
  { repeat constructor; cbn; lia. }
  split; [exact Hall|].
  destruct (C10_large_n_step_never_commits (fresh_store 0.4) _ (marked 5 5) 5 0.99
              Hall ltac:(lia)) as (Hbuf & _).
  exact Hbuf.
Defined.

(** ** Further properties of the prioritized buffer *)

Section RingProperties.

Context {State Action : Type}.
Variable npower : Q -> Q -> option Q.
Implicit Types (s : Store State Action) (e : Transition State Action)
  (o : op State Action).

Lemma sample_cases (batch_size : Z) (draw : list Z) s :
  snd (sample npower batch_size draw s) = s \/
  snd (sample npower batch_size draw s) =
    set_beta (py_min 1 (beta s + beta_increment s)%Q) s.
Proof.
  pose proof (sample_state npower batch_size draw s) as H.
  destruct (sample npower batch_size draw s) as [[v|err] s']; cbn [snd].
  - destruct (size s =? 0)%nat; [destruct H as [-> _]|subst s']; auto.
  - destruct H as [-> _]. auto.
Qed.

Lemma update_priorities_buffer indices ps s :
  buffer (snd (update_priorities indices ps s)) = buffer s.
Proof.
  apply (update_priorities_preserves (fun s' => buffer s' = buffer s)); [|reflexivity].
  intros idx p s' Hs'. rewrite update_priority_spec.
  destruct (py_index _ idx); cbn [snd]; assumption.
Qed.

Lemma committed_occupied (t : Transition State Action) s :
  ring_inv s -> Forall is_Some (buffer s) -> Forall is_Some (buffer (committed t s)).
Proof.
  intros [Hcap Hprio Hsize Hpos Hwarm] Hall. unfold size in *.
  cbn [committed buffer]. unfold size.
  destruct (Z.ltb_spec (Z.of_nat (length (buffer s))) (capacity s)) as [Hlt | Hge].
  - rewrite (Hwarm Hlt), Nat2Z.id.
    rewrite insert_app_r_alt, Nat.sub_diag by lia. cbn [insert list_insert].
    apply Forall_app. split; [exact Hall | repeat constructor; eauto].
  - apply Forall_insert; [exact Hall | eauto].
Qed.

(** X1. On a store built with a capacity of at least one and used only
    through its methods, [add] returns for every experience, every
    [n_step], zero and negative ones included, and every [gamma]: none of
    its list and array accesses is ever out of range and its modulus is
    never by zero. *)
Theorem X1_add_returns s e (n_step : Z) (gamma : Q) :
  reachable npower s -> fst (add e n_step gamma s) = Ok tt.
Proof.
  intros Hreach. rewrite add_spec by (eapply reachable_ring_inv, Hreach).
  reflexivity.
Qed.

(** X2. Every store built with a capacity of at least one and used only
    through its methods has at most [capacity] occupied slots, exactly
    [capacity] priorities, its cursor inside the ring and, while the ring
    still grows, at its end; every occupied slot holds a transition, never
    the [None] placeholder; and the window holds at most three
    experiences. *)
Theorem X2_reachable_shape s :
  reachable npower s ->
  Z.of_nat (size s) <= capacity s /\
  length (priorities s) = Z.to_nat (capacity s) /\
  0 <= pos s < capacity s /\
  (Z.of_nat (size s) < capacity s -> pos s = Z.of_nat (size s)) /\
  Forall is_Some (buffer s) /\
  (length (n_step_buffer s) <= 3)%nat.
Proof.
  intros Hreach.
  assert (Hinv : ring_inv s) by (eapply reachable_ring_inv, Hreach).
  destruct Hinv as [Hcap Hprio Hsize Hpos Hwarm].
  repeat split; try assumption; try apply Hpos.
  - induction Hreach as [cap a b inc s Hc Hinit | s o Hreach IH].
    + unfold init in Hinit. destruct (cap <? 0); [discriminate|].
      injection Hinit as <-. constructor.
    + assert (Hinv : ring_inv s) by (eapply reachable_ring_inv, Hreach).
      specialize (IH ltac:(apply Hinv) ltac:(apply Hinv) ltac:(apply Hinv)
                     ltac:(apply Hinv) ltac:(apply Hinv)).
      destruct o as [e n g | b d | indices ps]; cbn [step] in *.
      * rewrite add_spec by assumption. cbn [snd].
        repeat case_match; try exact IH.
        apply committed_occupied;
          [apply set_n_step_buffer_ring_inv, Hinv | exact IH].
      * destruct (sample_cases b d s) as [-> | ->]; exact IH.
      * rewrite update_priorities_buffer. exact IH.
  - clear Hcap Hprio Hsize Hpos Hwarm.
    induction Hreach as [cap a b inc s Hc Hinit | s o Hreach IH].
    + unfold init in Hinit. destruct (cap <? 0); [discriminate|].
      injection Hinit as <-. cbn. lia.
    + assert (Hinv : ring_inv s) by (eapply reachable_ring_inv, Hreach).
      destruct o as [e n g | b d | indices ps]; cbn [step].
      * rewrite add_window, deque_append_length by assumption. lia.
      * rewrite sample_window. exact IH.
      * rewrite update_priorities_window. exact IH.
Qed.

Lemma add_without_commit e (n_step : Z) (gamma : Q) s :
  n_step <> Z.of_nat (Nat.min 3 (S (length (n_step_buffer s)))) ->
  add e n_step gamma s =
    (Ok tt, set_n_step_buffer (deque_append 3 (n_step_buffer s) e) s).
Proof.
  intros Hn. unfold add, bind at 1 2, modify, gets.
  cbn [n_step_buffer set_n_step_buffer].
  rewrite deque_append_length.
  destruct (Z.eqb_spec (Z.of_nat (Nat.min 3 (S (length (n_step_buffer s))))) n_step);
    [congruence | reflexivity].
Qed.

(** X3. Once two experiences are pending, only calls with [n_step = 3]
    commit: any number of [add] calls with other values of [n_step], 1
    and 2 included, return and leave the ring, the priority array, the
    cursor, the size and [max_priority] as they were. *)
Theorem X3_other_n_step_stalls s (calls : list (Transition State Action * Z * Q)) :
  (2 <= length (n_step_buffer s))%nat ->
  Forall (fun c => snd (fst c) <> 3) calls ->
  buffer (add_each calls s) = buffer s /\
  priorities (add_each calls s) = priorities s /\
  pos (add_each calls s) = pos s /\
  size (add_each calls s) = size s /\
  max_priority (add_each calls s) = max_priority s.
Proof.
  revert s. induction calls as [|[[e n] g] calls IH]; intros s Hlen Hall.
  - repeat split.
  - apply Forall_cons in Hall as [Hn Hall]. cbn [fst snd] in Hn.
    unfold add_each. cbn [foldl]. fold (add_each calls (snd (add e n g s))).
    rewrite add_without_commit
      by (replace (Nat.min 3 (S (length (n_step_buffer s)))) with 3%nat by lia;
          exact Hn).
    cbn [snd].
    destruct (IH (set_n_step_buffer (deque_append 3 (n_step_buffer s) e) s))
      as (-> & -> & -> & -> & ->);
      [cbn [n_step_buffer set_n_step_buffer]; rewrite deque_append_length; lia
      | exact Hall |].
    repeat split.
Qed.

(** X4. With two experiences pending, [k] further [add] calls with
    [n_step = 3] all commit: they move the cursor to
    [(pos + k) mod capacity], bring the size to [min(capacity, size + k)]
    and leave [max_priority] alone.  The ring never outgrows its
    capacity and the cursor wraps. *)
Theorem X4_cursor_after_commits s (calls : list (Transition State Action * Z * Q)) :
  ring_inv s ->
  (2 <= length (n_step_buffer s))%nat ->
  Forall (fun c => snd (fst c) = 3) calls ->
  pos (add_each calls s) = (pos s + Z.of_nat (length calls)) mod capacity s /\
  size (add_each calls s) = Nat.min (Z.to_nat (capacity s)) (size s + length calls) /\
  max_priority (add_each calls s) = max_priority s /\
  capacity (add_each calls s) = capacity s.
Proof.
  revert s. induction calls as [|[[e n] g] calls IH]; intros s Hinv Hlen Hall.
  - destruct Hinv as [Hcap Hprio Hsize Hpos Hwarm]. cbn [add_each foldl length].
    rewrite Z.add_0_r, Z.mod_small by lia. repeat split. lia.
  - apply Forall_cons in Hall as [Hn Hall]. cbn [fst snd] in Hn. subst n.
    unfold add_each. cbn [foldl]. fold (add_each calls (snd (add e 3 g s))).
    rewrite add_spec by assumption. cbn [snd n_step_buffer set_n_step_buffer].
    rewrite deque_append_length.
    replace (Nat.min 3 (S (length (n_step_buffer s)))) with 3%nat by lia.
    destruct (aggregate_deque_append g (n_step_buffer s) e) as [t ->].
    set (s1 := set_n_step_buffer (deque_append 3 (n_step_buffer s) e) s).
    assert (Hinv1 : ring_inv s1) by (apply set_n_step_buffer_ring_inv, Hinv).
    pose proof (committed_lookup t s1 Hinv1) as (_ & _ & _ & Hsz & Hp).
    change (Z.of_nat 3 =? 3) with true. cbv iota.
    destruct (IH (committed t s1)) as (-> & -> & -> & ->);
      [apply committed_ring_inv, Hinv1
      | cbn [committed n_step_buffer]; subst s1;
        cbn [n_step_buffer set_n_step_buffer]; rewrite deque_append_length; lia
      | exact Hall |].
    rewrite Hsz, Hp. change (capacity (committed t s1)) with (capacity s).
    change (max_priority (committed t s1)) with (max_priority s).
    change (capacity s1) with (capacity s). change (pos s1) with (pos s).
    change (size s1) with (size s).
    destruct Hinv as [Hcap Hprio Hsize Hpos Hwarm].
    repeat split.
    + rewrite Zplus_mod_idemp_l. f_equal. cbn [length]. lia.
    + cbn [length].
      destruct (Z.ltb_spec (Z.of_nat (size s)) (capacity s)); lia.
Qed.

Lemma step_max_priority s o :
  (max_priority s <= max_priority (step npower s o))%Q.
Proof.
  destruct o as [e n g | b d | indices ps]; cbn [step].
  - rewrite (add_keeps max_priority) by reflexivity. apply Qle_refl.
  - destruct (sample_cases b d s) as [-> | ->]; apply Qle_refl.
  - apply (update_priorities_preserves
             (fun s' => (max_priority s <= max_priority s')%Q)); [|apply Qle_refl].
    intros idx p s' Hs'. rewrite update_priority_spec.
    destruct (py_index _ idx); cbn [snd]; [|exact Hs'].
    cbn [set_max_priority max_priority].
    eapply Qle_trans; [exact Hs' | apply py_max_ge_l].
Qed.

(** X5. [max_priority] never decreases: after any sequence of [add],
    [sample] and [update_priorities] calls, returned or raised, it is at
    least what it was. *)
Theorem X5_max_priority_never_decreases s (ops : list (op State Action)) :
  (max_priority s <= max_priority (run npower s ops))%Q.
Proof.
  revert s. induction ops as [|o ops IH]; intros s; [apply Qle_refl|].
  cbn [run foldl]. fold (run npower (step npower s o) ops).
  eapply Qle_trans; [apply step_max_priority | apply IH].
Qed.

(** X21. A store built with capacity 0 can hold nothing: every [add]
    whose [n_step] matches the window, so that it would commit, raises
    [IndexError] at the assignment to the empty ring, having appended to
    the window and changed nothing else. *)
Theorem X21_capacity_zero_add_raises s e (n_step : Z) (gamma : Q) :
  capacity s = 0 ->
  buffer s = [] ->
  n_step = Z.of_nat (Nat.min 3 (S (length (n_step_buffer s)))) ->
  add e n_step gamma s =
    (Raise IndexError, set_n_step_buffer (deque_append 3 (n_step_buffer s) e) s).
Proof.
  intros Hcap Hbuf ->. rewrite <- (deque_append_length 3 (n_step_buffer s) e).
  unfold add, bind at 1 2, modify, gets. cbn [n_step_buffer set_n_step_buffer].
  rewrite Z.eqb_refl.
  assert (Hstore : forall t w,
            store_transition t (set_n_step_buffer w s) =
              (Raise IndexError, set_n_step_buffer w s)).
  { intros t w. unfold store_transition, bind, gets, modify, setitem.
    cbn [buffer capacity set_n_step_buffer pos]. rewrite Hbuf, Hcap.
    change (Z.of_nat (length (A := option (Transition State Action)) []) <? 0) with false.
    unfold ret. cbn [buffer capacity set_n_step_buffer pos]. rewrite Hbuf.
    rewrite py_index_outside by (cbn [length]; lia). reflexivity. }
  destruct (deque_append_shape (n_step_buffer s) e) as [-> | [[a ->] | [a [b ->]]]];
    unfold bind, getitem, n_step_reward; cbn; apply Hstore.
Qed.

End RingProperties.

Section CallProperties.

Context {State Action : Type}.
Variable npower : Q -> Q -> option Q.
Implicit Types (s : Store State Action) (e : Transition State Action)
  (o : op State Action).

Lemma committed_unit_priorities (t : Transition State Action) s :
  ring_inv s ->
  max_priority s = 1%Q ->
  priorities s = replicate (size s) 1%Q ++ replicate (Z.to_nat (capacity s) - size s) 0%Q ->
  priorities (committed t s) =
    replicate (size (committed t s)) 1%Q ++
    replicate (Z.to_nat (capacity s) - size (committed t s)) 0%Q.
Proof.
  intros Hinv Htop Hprios.
  pose proof (committed_lookup t s Hinv) as (_ & _ & _ & Hsz & _).
  destruct Hinv as [Hcap Hprio Hsize Hpos Hwarm].
  rewrite Hsz. cbn [committed priorities]. rewrite Htop, Hprios.
  destruct (Z.ltb_spec (Z.of_nat (size s)) (capacity s)) as [Hlt | Hge].
  - rewrite (Hwarm Hlt), Nat2Z.id.
    rewrite insert_app_r_alt by (rewrite length_replicate; lia).
    rewrite length_replicate, Nat.sub_diag, replicate_S_end, <- app_assoc.
    replace (Z.to_nat (capacity s) - size s)%nat
      with (S (Z.to_nat (capacity s) - S (size s))) by lia.
    reflexivity.
  - rewrite insert_app_l by (rewrite length_replicate; lia).
    rewrite insert_replicate. reflexivity.
Qed.

(** X6. As long as [update_priorities] is not called, priorities carry
    no information: after any [add] and [sample] calls on a store built
    with a capacity of at least one, [max_priority] is still 1.0, every
    occupied slot has the priority 1.0 and every other slot the priority
    0.0. *)
Theorem X6_priorities_without_updates (cap : Z) (a b inc : Q) s0
    (ops : list (op State Action)) :
  1 <= cap ->
  init cap a b inc = Ok s0 ->
  Forall no_update ops ->
  max_priority (run npower s0 ops) = 1%Q /\
  priorities (run npower s0 ops) =
    replicate (size (run npower s0 ops)) 1%Q ++
    replicate (Z.to_nat cap - size (run npower s0 ops)) 0%Q.
Proof.
  intros Hcap Hinit Hops.
  assert (H0 : ring_inv s0 /\ capacity s0 = cap /\ max_priority s0 = 1%Q /\
               priorities s0 =
                 replicate (size s0) 1%Q ++ replicate (Z.to_nat (capacity s0) - size s0) 0%Q).
  { split; [eapply init_ring_inv; eassumption|].
    unfold init in Hinit. destruct (cap <? 0); [discriminate|].
    injection Hinit as <-. cbn. rewrite Nat.sub_0_r. repeat split. }
  clear Hinit. revert s0 H0.
  induction ops as [|o ops IH]; intros s0 (Hinv & Hc & Htop & Hprios).
  - cbn [run foldl]. rewrite <- Hc. split; assumption.
  - apply Forall_cons in Hops as [Ho Hops]. cbn [run foldl].
    apply (IH Hops). split; [apply step_ring_inv, Hinv|].
    destruct o as [e n g | bs d | indices ps]; cbn [step no_update] in *;
      [| |contradiction].
    + rewrite add_spec by assumption. cbn [snd].
      repeat case_match; try (repeat split; assumption).
      repeat split; try assumption.
      apply (committed_unit_priorities _ (set_n_step_buffer _ s0));
        [apply set_n_step_buffer_ring_inv, Hinv | exact Htop | exact Hprios].
    + destruct (sample_cases npower bs d s0) as [-> | ->]; repeat split; assumption.
Qed.

(** X7. [sample] reads the store and writes nothing but [beta]: whether
    it returns or raises, the ring, the priority array, the cursor,
    [max_priority], the window and the hyperparameters are as before. *)
Theorem X7_sample_writes_beta_only (batch_size : Z) (draw : list Z) s :
  let s' := snd (sample npower batch_size draw s) in
  buffer s' = buffer s /\
  priorities s' = priorities s /\
  pos s' = pos s /\
  max_priority s' = max_priority s /\
  n_step_buffer s' = n_step_buffer s /\
  capacity s' = capacity s /\
  alpha s' = alpha s /\
  beta_increment s' = beta_increment s.
Proof.
  intros s'. subst s'.
  destruct (sample_cases npower batch_size draw s) as [-> | ->]; repeat split.
Qed.

(** X8. On a store that is not empty, [sample] with a negative
    [batch_size], or with [batch_size = 0] and hence an empty draw,
    raises [ValueError] and leaves the store, [beta] included, as it
    was. *)
Theorem X8_sample_degenerate_batch (batch_size : Z) (draw : list Z) s :
  size s <> 0%nat ->
  batch_size < 0 \/ (batch_size = 0 /\ draw = []) ->
  sample npower batch_size draw s = (Raise ValueError, s).
Proof.
  intros Hne Hbatch. unfold sample, bind at 1, gets at 1. unfold size in Hne.
  destruct (Nat.eqb_spec (length (buffer s)) 0) as [Hz | _]; [contradiction|].
  unfold bind at 1, gets at 1. unfold bind at 1, random_choice.
  destruct Hbatch as [Hneg | [-> ->]].
  - unfold choice_accepts. destruct (Z.leb_spec 0 batch_size); [lia|]. reflexivity.
  - destruct (choice_accepts _ _ _); reflexivity.
Qed.

Lemma comprehension_getitem_inv {A} (l : list A) (indices : list Z) (xs : list A) s s' :
  comprehension (getitem l) indices s = (Ok xs, s') ->
  Forall2 (fun i x => exists k, py_index (length l) i = Some k /\ l !! k = Some x)
          indices xs.
Proof.
  revert xs. induction indices as [|i indices IH]; intros xs.
  - cbn. intros [= <- _]. constructor.
  - cbn [comprehension]. unfold bind at 1. unfold getitem at 1.
    destruct (py_index (length l) i) as [k|] eqn:Hk; [|discriminate].
    destruct (l !! k) as [x|] eqn:Hx; [|discriminate].
    unfold ret at 1. unfold bind.
    pose proof (comprehension_getitem_state l indices s) as Hs.
    destruct (comprehension (getitem l) indices s) as [[ys|err] s1]; [|discriminate].
    unfold ret. intros [= <- <-]. constructor; [eauto | apply IH; reflexivity].
Qed.

(** X9. When [sample] returns from a store that is not empty, the
    indices it returns are the ones drawn, there is at least one, the
    batch and the weights have one entry per index, and entry [j] of the
    batch is what the ring holds at index [j] of the draw; [beta] is
    annealed and nothing else has changed. *)
Theorem X9_sample_result_shape (batch_size : Z) (draw : list Z) s
    (samples : list (option (Transition State Action))) (indices : list Z)
    (weights : list (option Q)) s' :
  size s <> 0%nat ->
  sample npower batch_size draw s = (Ok (samples, indices, weights), s') ->
  indices = draw /\
  draw <> [] /\
  0 <= batch_size /\
  Forall2 (fun i x => exists k, py_index (size s) i = Some k /\ buffer s !! k = Some x)
          draw samples /\
  length samples = length draw /\
  length weights = length draw /\
  s' = set_beta (py_min 1 (beta s + beta_increment s)%Q) s.
Proof.
  intros Hne. unfold sample, bind at 1, gets at 1. unfold size in *.
  destruct (Nat.eqb_spec (length (buffer s)) 0) as [Hz | _]; [contradiction|].
  unfold bind at 1, gets at 1. unfold bind at 1, random_choice.
  destruct (choice_accepts _ _ _) eqn:Hacc; [|discriminate]. unfold ret at 1.
  unfold bind at 1.
  pose proof (comprehension_getitem_state (buffer s) draw s) as H1.
  destruct (comprehension (getitem (buffer s)) draw s) as [[smp|err] s1] eqn:Hsmp;
    cbn [snd] in H1; subst s1; [|discriminate].
  apply comprehension_getitem_inv in Hsmp.
  unfold bind at 1.
  pose proof (comprehension_getitem_state (sampling_probs npower s) draw s) as H2.
  destruct (comprehension (getitem (sampling_probs npower s)) draw s)
    as [[picked|err] s2] eqn:Hpicked; cbn [snd] in H2; subst s2; [|discriminate].
  apply comprehension_getitem_inv, Forall2_length in Hpicked.
  unfold bind at 1, gets at 1. unfold bind at 1, np_max.
  destruct picked as [|p picked]; [discriminate|].
  cbn [map]. unfold ret at 1. unfold bind, gets, modify, ret.
  intros [= <- <- <- <-].
  assert (H0 : 0 <= batch_size).
  { unfold choice_accepts in Hacc. destruct (Z.leb_spec 0 batch_size); [lia|discriminate]. }
  repeat split; try assumption.
  - intros ->. discriminate.
  - apply Forall2_length in Hsmp. congruence.
  - cbn [length] in *. rewrite !length_map. congruence.
Qed.

End CallProperties.

Section UpdateProperties.

Context {State Action : Type}.
Implicit Types (s : Store State Action).

Lemma update_priority_out_of_bounds (idx : Z) (p : Q) s :
  ring_inv s -> out_of_bounds s idx ->
  update_priority idx p s = (Raise IndexError, s).
Proof.
  intros [Hcap Hprio _ _ _] Hbad. rewrite update_priority_spec.
  rewrite py_index_outside; [reflexivity|]. unfold out_of_bounds in Hbad.
  rewrite Hprio. lia.
Qed.

Lemma update_priority_in_bounds (idx : Z) (p : Q) s :
  ring_inv s -> ~ out_of_bounds s idx ->
  update_priority idx p s =
    (Ok tt, set_max_priority (py_max (max_priority s) p)
              (set_priorities (<[Z.to_nat (idx mod capacity s) := p]> (priorities s)) s)).
Proof.
  intros [Hcap Hprio _ _ _] Hgood. rewrite update_priority_spec.
  unfold out_of_bounds in Hgood. destruct (Z.lt_ge_cases idx 0) as [Hneg | Hnn].
  - rewrite py_index_negative by (rewrite Hprio; lia).
    replace (idx mod capacity s) with (Z.of_nat (length (priorities s)) + idx);
      [reflexivity|].
    rewrite Hprio, Z2Nat.id by lia. apply Z.mod_unique with (q := -1); lia.
  - rewrite py_index_inside by (rewrite Hprio; lia).
    rewrite Z.mod_small by lia. reflexivity.
Qed.

(** X10. [update_priorities] writes the priority array and
    [max_priority] and nothing else, also when it raises: the ring, the
    cursor, the window, [beta] and the other hyperparameters are as
    before, and the priority array keeps its length. *)
Theorem X10_update_priorities_frame (indices : list Z) (ps : list Q) s :
  let s' := snd (update_priorities indices ps s) in
  buffer s' = buffer s /\
  pos s' = pos s /\
  n_step_buffer s' = n_step_buffer s /\
  capacity s' = capacity s /\
  alpha s' = alpha s /\
  beta s' = beta s /\
  beta_increment s' = beta_increment s /\
  length (priorities s') = length (priorities s).
Proof.
  cbv zeta.
  apply (update_priorities_preserves
           (fun s' => buffer s' = buffer s /\ pos s' = pos s /\
                      n_step_buffer s' = n_step_buffer s /\ capacity s' = capacity s /\
                      alpha s' = alpha s /\ beta s' = beta s /\
                      beta_increment s' = beta_increment s /\
                      length (priorities s') = length (priorities s)));
    [|repeat split].
  intros idx p s' Hs'. rewrite update_priority_spec.
  destruct (py_index _ idx); cbn [snd]; [|exact Hs'].
  destruct Hs' as (? & ? & ? & ? & ? & ? & ? & ?).
  repeat split; try assumption. cbn. rewrite length_insert. assumption.
Qed.

Lemma zip_take_min {A B} (l : list A) (k : list B) :
  zip (take (Nat.min (length l) (length k)) l) (take (Nat.min (length l) (length k)) k) =
  zip l k.
Proof.
  revert k. induction l as [|x l IH]; intros [|y k]; try reflexivity.
  cbn [length Nat.min take zip_with]. f_equal. apply IH.
Qed.

(** X11. [update_priorities] goes through [zip(indices, priorities)]:
    when the two sequences differ in length, what the longer one has
    beyond the length of the shorter is ignored without an error, an
    out-of-range index there included; with an empty sequence on either
    side the call returns and changes nothing. *)
Theorem X11_update_priorities_truncates (indices : list Z) (ps : list Q) s :
  update_priorities indices ps s =
    update_priorities (take (Nat.min (length indices) (length ps)) indices)
                      (take (Nat.min (length indices) (length ps)) ps) s /\
  update_priorities [] ps s = (Ok tt, s) /\
  update_priorities indices [] s = (Ok tt, s).
Proof.
  split; [|split].
  - unfold update_priorities. rewrite zip_take_min. reflexivity.
  - reflexivity.
  - destruct indices; reflexivity.
Qed.

Lemma update_priorities_app (idx1 idx2 : list Z) (ps1 ps2 : list Q) s :
  length idx1 = length ps1 ->
  update_priorities (idx1 ++ idx2) (ps1 ++ ps2) s =
    match update_priorities idx1 ps1 s with
    | (Ok _, s') => update_priorities idx2 ps2 s'
    | (Raise err, s') => (Raise err, s')
    end.
Proof.
  revert ps1 s. induction idx1 as [|i idx1 IH]; intros [|p ps1] s Hlen;
    try discriminate.
  - reflexivity.
  - cbn [app]. rewrite !update_priorities_cons.
    destruct (update_priority i p s) as [[[]|err] s1]; [|reflexivity].
    apply IH. cbn in Hlen. lia.
Qed.

Lemma update_priorities_ring_inv_all (indices : list Z) (ps : list Q) s :
  ring_inv s -> ring_inv (snd (update_priorities indices ps s)).
Proof.
  apply update_priorities_preserves. intros idx p s'. apply update_priority_ring_inv.
Qed.

Lemma update_priorities_form (indices : list Z) (ps : list Q) s :
  ring_inv s ->
  Forall (fun c => ~ out_of_bounds s (fst c)) (zip indices ps) ->
  update_priorities indices ps s =
    (Ok tt,
     set_max_priority (foldl py_max (max_priority s) (map snd (zip indices ps)))
       (set_priorities
          (foldl (fun l c => <[Z.to_nat (fst c mod capacity s) := snd c]> l)
                 (priorities s) (zip indices ps)) s)).
Proof.
  revert ps s. induction indices as [|idx indices IH]; intros ps s Hinv Hall.
  - destruct s. reflexivity.
  - destruct ps as [|p ps]; [destruct s; reflexivity|].
    cbn [zip_with] in Hall. apply Forall_cons in Hall as [Hgood Hall].
    cbn [fst] in Hgood.
    rewrite update_priorities_cons, update_priority_in_bounds by assumption.
    rewrite IH.
    + reflexivity.
    + destruct Hinv. constructor; cbn; try assumption.
      rewrite length_insert. assumption.
    + exact Hall.
Qed.

Lemma update_priorities_capacity (indices : list Z) (ps : list Q) s :
  capacity (snd (update_priorities indices ps s)) = capacity s.
Proof.
  apply (update_priorities_preserves (fun s' => capacity s' = capacity s)); [|reflexivity].
  intros idx p s' Hs'. rewrite update_priority_spec.
  destruct (py_index _ idx); cbn [snd]; assumption.
Qed.

(** X12. The whole call in closed form.  When every index that is paired
    is within [[-capacity, capacity)], [update_priorities] returns, the
    priority array is the old one with the pairs written in order, index
    [idx] at slot [idx mod capacity], so that of two pairs with the same
    index the later one stands, and [max_priority] is the maximum of its
    old value and the priorities passed, hence at least each of them. *)
Theorem X12_update_priorities_closed_form (indices : list Z) (ps : list Q) s :
  ring_inv s ->
  Forall (fun c => ~ out_of_bounds s (fst c)) (zip indices ps) ->
  update_priorities indices ps s =
    (Ok tt,
     set_max_priority (foldl py_max (max_priority s) (map snd (zip indices ps)))
       (set_priorities
          (foldl (fun l c => <[Z.to_nat (fst c mod capacity s) := snd c]> l)
                 (priorities s) (zip indices ps)) s)) /\
  Forall (fun c => (snd c <= max_priority (snd (update_priorities indices ps s)))%Q)
         (zip indices ps).
Proof.
  intros Hinv Hall.
  pose proof (update_priorities_form indices ps s Hinv Hall) as Hform.
  split; [exact Hform|]. rewrite Hform. cbn [snd set_max_priority max_priority].
  clear. generalize (max_priority s) as top. generalize (zip indices ps) as pairs.
  induction pairs as [|c pairs IH]; intros top; [constructor|].
  cbn [map foldl]. constructor; [|apply IH].
  pose proof (foldl_py_max_ge (py_max top (snd c)) (map snd pairs)) as Hge.
  apply Forall_cons in Hge as [Hge _].
  eapply Qle_trans; [apply py_max_ge_r | exact Hge].
Qed.

(** X13. [update_priorities] is not atomic.  When the pairs
    [idx1, ps1] are all within bounds and the next index [bad] is not,
    the call raises [IndexError] at [bad] with the pairs before it
    written and [max_priority] updated for them; the pairs after [bad]
    are not reached. *)
Theorem X13_update_priorities_partial (idx1 rest : list Z) (ps1 prest : list Q)
    (bad : Z) (p : Q) s :
  ring_inv s ->
  length idx1 = length ps1 ->
  Forall (fun i => ~ out_of_bounds s i) idx1 ->
  out_of_bounds s bad ->
  fst (update_priorities idx1 ps1 s) = Ok tt /\
  update_priorities (idx1 ++ bad :: rest) (ps1 ++ p :: prest) s =
    (Raise IndexError, snd (update_priorities idx1 ps1 s)).
Proof.
  intros Hinv Hlen Hgood Hbad.
  assert (Hpairs : Forall (fun c => ~ out_of_bounds s (fst c)) (zip idx1 ps1)).
  { clear -Hgood. revert ps1. induction Hgood as [|i idx1 Hi _ IH]; intros [|q ps1];
      cbn [zip_with]; constructor; auto. }
  assert (Hok : fst (update_priorities idx1 ps1 s) = Ok tt).
  { rewrite (update_priorities_form idx1 ps1 s Hinv Hpairs). reflexivity. }
  split; [exact Hok|].
  rewrite update_priorities_app by assumption.
  pose proof (update_priorities_ring_inv_all idx1 ps1 s Hinv) as Hinv1.
  pose proof (update_priorities_capacity idx1 ps1 s) as Hcap.
  destruct (update_priorities idx1 ps1 s) as [[[]|err] s1]; cbn [fst snd] in *;
    [|discriminate].
  rewrite update_priorities_cons, update_priority_out_of_bounds;
    [reflexivity | exact Hinv1 |].
  unfold out_of_bounds in *. rewrite Hcap. exact Hbad.
Qed.

End UpdateProperties.

Section DistributionProperties.

Context {State Action : Type}.
Variable npower : Q -> Q -> option Q.
Implicit Types (s : Store State Action).

Lemma take_occupied_constant (x : Q) s :
  (forall i : nat, (i < size s)%nat -> priorities s !! i = Some x) ->
  take (size s) (priorities s) = replicate (size s) x.
Proof.
  intros Hall. apply list_eq. intros i.
  destruct (Nat.lt_ge_cases i (size s)) as [Hlt | Hge].
  - rewrite lookup_take_lt, lookup_replicate_2 by assumption. apply Hall, Hlt.
  - rewrite lookup_take_ge by assumption. symmetry.
    apply lookup_replicate_None. assumption.
Qed.

Lemma map_replicate {A B} (f : A -> B) (n : nat) (x : A) :
  map f (replicate n x) = replicate n (f x).
Proof. induction n as [|n IH]; [reflexivity|]. cbn. f_equal. exact IH. Qed.

Lemma np_sum_constant (n : nat) (a x : Q) :
  exists total, foldl fadd (Some a) (replicate n (Some x)) = Some total /\
                (total == a + inject_Z (Z.of_nat n) * x)%Q.
Proof.
  revert a. induction n as [|n IH]; intros a.
  - exists a. split; [reflexivity|]. cbn. ring.
  - cbn [replicate foldl fadd]. destruct (IH (a + x)%Q) as (total & Hsum & Htotal).
    exists total. split; [exact Hsum|]. rewrite Htotal.
    rewrite Nat2Z.inj_succ. unfold Z.succ. rewrite inject_Z_plus. ring.
Qed.

(** X14. When every occupied slot has the priority 0.0 and the power of
    0.0 is 0.0, as it is for a positive exponent [alpha], the
    probabilities are 0/0: [sample] on such a store, if it is not empty,
    raises [ValueError] from the random choice for every [batch_size], and
    leaves the store as it was. *)
Theorem X14_sample_all_zero_priorities (batch_size : Z) (draw : list Z) s :
  size s <> 0%nat ->
  npower 0%Q (alpha s) = Some 0%Q ->
  (forall i : nat, (i < size s)%nat -> priorities s !! i = Some 0%Q) ->
  sampling_probs npower s = replicate (size s) None /\
  sample npower batch_size draw s = (Raise ValueError, s).
Proof.
  intros Hne Hpow Hzero.
  assert (Hprobs : sampling_probs npower s = replicate (size s) None).
  { unfold sampling_probs. fold (size s). rewrite (take_occupied_constant 0%Q) by assumption.
    rewrite map_replicate, Hpow. unfold np_sum.
    destruct (np_sum_constant (size s) 0 0) as (total & -> & Htotal).
    rewrite map_replicate. cbn [fdiv].
    assert (Hz : Qeq_bool total 0 = true) by (apply Qeq_bool_iff; rewrite Htotal; ring).
    rewrite Hz. reflexivity. }
  split; [exact Hprobs|].
  unfold sample, bind at 1, gets at 1. fold (size s).
  destruct (Nat.eqb_spec (size s) 0) as [Hz | _]; [contradiction|].
  unfold bind at 1, gets at 1. unfold bind at 1, random_choice, choice_accepts.
  rewrite Hprobs. destruct (size s) as [|n]; [contradiction|].
  cbn [replicate forallb is_probability]. rewrite andb_false_r. reflexivity.
Qed.

(** X15. With [alpha = 0.0], a power that is 1.0 whatever the base,
    sampling is uniform: on a store built with a capacity of at least
    one, the probability of every occupied slot is one over the total,
    and the total equals the number of occupied slots, whatever the
    priorities are. *)
Theorem X15_alpha_zero_uniform s :
  ring_inv s ->
  alpha s = 0%Q ->
  (forall x : Q, npower x 0%Q = Some 1%Q) ->
  exists total : Q,
    (total == inject_Z (Z.of_nat (size s)))%Q /\
    sampling_probs npower s = replicate (size s) (fdiv (Some 1%Q) (Some total)) /\
    (size s <> 0%nat -> fdiv (Some 1%Q) (Some total) = Some (1 / total)%Q).
Proof.
  intros [Hcap Hprio Hsize Hpos Hwarm] Halpha Hpow.
  destruct (np_sum_constant (size s) 0 1) as (total & Hsum & Htotal).
  exists total. split; [rewrite Htotal; ring|]. split.
  - unfold sampling_probs. fold (size s). rewrite Halpha.
    assert (Hraw : map (fun p => npower p 0%Q) (take (size s) (priorities s)) =
                   replicate (size s) (Some 1%Q)).
    { assert (Hlen : length (take (size s) (priorities s)) = size s)
        by (rewrite length_take; lia).
      revert Hlen. generalize (take (size s) (priorities s)) as l.
      generalize (size s) as n. clear -Hpow.
      intros n l. revert n. induction l as [|p l IH]; intros [|n] Hlen;
        try discriminate; [reflexivity|].
      cbn [map replicate]. rewrite Hpow. f_equal. apply IH. cbn in Hlen. lia. }
    rewrite Hraw. unfold np_sum. rewrite Hsum, map_replicate. reflexivity.
  - intros Hne. cbn [fdiv].
    assert (Hnz : Qeq_bool total 0 = false).
    { apply not_true_iff_false. rewrite Qeq_bool_iff, Htotal.
      assert (0 < inject_Z (Z.of_nat (size s)))%Q by (unfold Qlt; cbn; lia). lra. }
    rewrite Hnz. reflexivity.
Qed.

End DistributionProperties.

(** ** The plain replay buffer *)

Section PlainProperties.

Context {State Action : Type}.
Implicit Types (b : ReplayBuffer.Store State Action) (e : Transition State Action).

Lemma transition_eta e :
  mkTransition (state e) (action e) (reward e) (next_state e) (done e) = e.
Proof. destruct e. reflexivity. Qed.

Lemma deque_append_each {A} (m : nat) (d xs : list A) :
  (length d <= m)%nat ->
  foldl (deque_append m) d xs = drop (length (d ++ xs) - m) (d ++ xs).
Proof.
  revert d. induction xs as [|x xs IH]; intros d Hlen.
  - rewrite app_nil_r. replace (length d - m)%nat with 0%nat by lia. reflexivity.
  - cbn [foldl]. rewrite IH by (rewrite deque_append_length; lia).
    unfold deque_append.
    rewrite <- drop_app_le by (rewrite length_app; cbn [length]; lia).
    rewrite drop_drop, <- app_assoc. cbn [app]. f_equal.
    rewrite length_drop, !length_app. cbn [length]. lia.
Qed.

Lemma plain_add_each_buffer (xs : list (Transition State Action)) b :
  ReplayBuffer.buffer (ReplayBuffer.add_each xs b) =
    foldl (deque_append (ReplayBuffer.maxlen b)) (ReplayBuffer.buffer b) xs /\
  ReplayBuffer.maxlen (ReplayBuffer.add_each xs b) = ReplayBuffer.maxlen b.
Proof.
  revert b. induction xs as [|x xs IH]; intros b; [split; reflexivity|].
  unfold ReplayBuffer.add_each. cbn [foldl].
  fold (ReplayBuffer.add_each xs
          (snd (ReplayBuffer.add (state x) (action x) (reward x) (next_state x) (done x) b))).
  destruct (IH (snd (ReplayBuffer.add (state x) (action x) (reward x)
                                      (next_state x) (done x) b))) as [-> ->].
  cbn. rewrite transition_eta. split; reflexivity.
Qed.

(** X16. The plain buffer is a first-in-first-out window: after any
    sequence of [add] calls on a new [ReplayBuffer(size)] it holds the
    last [size] experiences added, in the order they were added, and so
    never more than [size]; with [size = 0] it stays empty. *)
Theorem X16_replay_buffer_fifo (size : Z) b (xs : list (Transition State Action)) :
  ReplayBuffer.init size = Ok b ->
  ReplayBuffer.buffer (ReplayBuffer.add_each xs b) = drop (length xs - Z.to_nat size) xs /\
  ReplayBuffer.len (ReplayBuffer.add_each xs b) = Nat.min (Z.to_nat size) (length xs).
Proof.
  unfold ReplayBuffer.init. destruct (size <? 0); [discriminate|]. intros [= <-].
  assert (Hbuf : ReplayBuffer.buffer
                   (ReplayBuffer.add_each xs (ReplayBuffer.mkStore (Z.to_nat size) [])) =
                 drop (length xs - Z.to_nat size) xs).
  { destruct (plain_add_each_buffer xs (ReplayBuffer.mkStore (Z.to_nat size) [])) as [-> _].
    cbn [ReplayBuffer.maxlen ReplayBuffer.buffer].
    rewrite deque_append_each by (cbn; lia). reflexivity. }
  split; [exact Hbuf|]. unfold ReplayBuffer.len. rewrite Hbuf, length_drop. lia.
Qed.

(** X17. [sample] of the plain buffer raises [ValueError] when
    [batch_size] is negative or larger than the number of experiences
    held, for an empty buffer as soon as [batch_size >= 1], and leaves
    the buffer as it was. *)
Theorem X17_replay_buffer_sample_too_large (batch_size : Z) (draw : list Z) b :
  batch_size < 0 \/ Z.of_nat (ReplayBuffer.len b) < batch_size ->
  ReplayBuffer.sample batch_size draw b = (Raise ValueError, b).
Proof.
  intros Hbad. unfold ReplayBuffer.sample, bind, gets, ReplayBuffer.random_sample.
  unfold ReplayBuffer.len in Hbad.
  destruct (Z.ltb_spec batch_size 0); [reflexivity|].
  destruct (Z.ltb_spec (Z.of_nat (length (ReplayBuffer.buffer b))) batch_size);
    [reflexivity | lia].
Qed.

Lemma comprehension_getitem_rows {S A} (l : list A) (indices : list Z) (xs : list A)
    (st : S) :
  Forall2 (fun i x => 0 <= i /\ l !! Z.to_nat i = Some x) indices xs ->
  comprehension (getitem l) indices st = (Ok xs, st).
Proof.
  induction 1 as [|i x indices xs [Hi Hx] _ IH]; [reflexivity|].
  cbn [comprehension]. unfold bind at 1. unfold getitem at 1.
  rewrite py_index_inside by (apply lookup_lt_Some in Hx; lia).
  rewrite Hx. unfold ret at 1. unfold bind. rewrite IH. reflexivity.
Qed.

Lemma columns_for_each {S} (rows : list (Transition State Action))
    (obs : list State) (act : list Action) (rew : list Q) (obs_tp1 : list State)
    (dones : list bool) (st : S) :
  for_each rows
    (fun smp '(obs, act, rew, obs_tp1, dones) =>
       ret (obs ++ [state smp], act ++ [action smp], rew ++ [reward smp],
            obs_tp1 ++ [next_state smp], dones ++ [done smp]))
    (obs, act, rew, obs_tp1, dones) st =
  (Ok (obs ++ map state rows, act ++ map action rows, rew ++ map reward rows,
       obs_tp1 ++ map next_state rows, dones ++ map done rows), st).
Proof.
  revert obs act rew obs_tp1 dones.
  induction rows as [|r rows IH]; intros obs act rew obs_tp1 dones.
  - cbn. rewrite !app_nil_r. reflexivity.
  - cbn [for_each map]. unfold bind at 1, ret at 1. rewrite IH.
    rewrite <- !app_assoc. reflexivity.
Qed.

(** X18. For a [batch_size] between 0 and the number of experiences
    held and any draw of that many distinct positions, [sample] of the
    plain buffer returns five columns of [batch_size] entries each, entry
    [j] of each column being the corresponding field of the experience
    held at position [j] of the draw, and leaves the buffer as it was. *)
Theorem X18_replay_buffer_sample_columns (batch_size : Z) (draw : list Z) b :
  batch_size <= Z.of_nat (ReplayBuffer.len b) ->
  ReplayBuffer.possible_sample (ReplayBuffer.len b) batch_size draw ->
  exists rows : list (Transition State Action),
    Forall2 (fun i e => ReplayBuffer.buffer b !! Z.to_nat i = Some e) draw rows /\
    Z.of_nat (length rows) = batch_size /\
    ReplayBuffer.sample batch_size draw b =
      (Ok (map state rows, map action rows, map reward rows,
           map next_state rows, map done rows), b).
Proof.
  intros Hfit (Hlen & _ & Hin). unfold ReplayBuffer.len in Hin, Hfit.
  assert (Hrows : exists rows : list (Transition State Action),
            Forall2 (fun i e => 0 <= i /\ ReplayBuffer.buffer b !! Z.to_nat i = Some e)
                    draw rows).
  { apply Forall_exists_Forall2_l. eapply Forall_impl; [exact Hin|].
    intros i Hi. cbn beta in Hi.
    destruct (lookup_lt_is_Some_2 (ReplayBuffer.buffer b) (Z.to_nat i)) as [e He];
      [lia|]. exists e. split; [lia | exact He]. }
  destruct Hrows as [rows Hrows]. exists rows.
  assert (Hsame : length draw = length rows) by (eapply Forall2_length, Hrows).
  split; [eapply Forall2_impl; [exact Hrows|]; intros i e [_ He]; exact He|].
  split; [lia|].
  unfold ReplayBuffer.sample, bind at 1, gets at 1.
  unfold bind at 1, ReplayBuffer.random_sample.
  destruct (Z.ltb_spec batch_size 0); [lia|].
  destruct (Z.ltb_spec (Z.of_nat (length (ReplayBuffer.buffer b))) batch_size); [lia|].
  cbn [orb]. rewrite (comprehension_getitem_rows _ _ _ _ Hrows).
  apply (columns_for_each rows [] [] [] [] []).
Qed.

End PlainProperties.

(** ** Ring size and penalized logP *)

Lemma py_max_int_max (a b : Z) : py_max_int a b = Z.max a b.
Proof. unfold py_max_int. destruct (Z.ltb_spec a b); lia. Qed.

Lemma py_max_of_ge (x : Z) (rest : list Z) :
  Forall (fun y => y <= py_max_of x rest) (x :: rest).
Proof.
  unfold py_max_of. revert x. induction rest as [|y rest IH]; intros x.
  - constructor; [reflexivity | constructor].
  - cbn [foldl]. specialize (IH (py_max_int x y)).
    apply Forall_cons in IH as [Htop Hrest].
    pose proof (py_max_int_max x y) as Hmax.
    constructor; [lia|]. constructor; [lia | exact Hrest].
Qed.

Lemma py_max_of_in (x : Z) (rest : list Z) : In (py_max_of x rest) (x :: rest).
Proof.
  unfold py_max_of. revert x. induction rest as [|y rest IH]; intros x;
    [left; reflexivity|].
  cbn [foldl]. destruct (IH (py_max_int x y)) as [H | H].
  - unfold py_max_int in H at 1. destruct (x <? y).
    + right. left. exact H.
    + left. exact H.
  - right. right. exact H.
Qed.

Section MoleculeProperties.

Variable Mol : Type.
Variable AtomRings : Mol -> list (list Z).
Variable MolLogP : Mol -> Q.
Variable calculateScore : Mol -> Q.

Lemma largest_ring_size_bound (molecule : Mol) (ring : list Z) :
  In ring (AtomRings molecule) ->
  Z.of_nat (length ring) <= get_largest_ring_size Mol AtomRings molecule.
Proof.
  unfold get_largest_ring_size. destruct (AtomRings molecule) as [|j js]; [intros []|].
  intros Hring.
  pose proof (py_max_of_ge (Z.of_nat (length j))
                (map (fun j => Z.of_nat (length j)) js)) as Hge.
  change (Z.of_nat (length j) :: map (fun j => Z.of_nat (length j)) js)
    with (map (fun j : list Z => Z.of_nat (length j)) (j :: js)) in Hge.
  rewrite Forall_forall in Hge. apply Hge, list_elem_of_In.
  apply (in_map (fun j : list Z => Z.of_nat (length j))), Hring.
Qed.

Lemma largest_ring_size_attained (molecule : Mol) :
  AtomRings molecule <> [] ->
  exists ring, In ring (AtomRings molecule) /\
               get_largest_ring_size Mol AtomRings molecule = Z.of_nat (length ring).
Proof.
  unfold get_largest_ring_size. destruct (AtomRings molecule) as [|j js];
    [contradiction|]. intros _.
  pose proof (py_max_of_in (Z.of_nat (length j))
                (map (fun j => Z.of_nat (length j)) js)) as Hin.
  change (Z.of_nat (length j) :: map (fun j => Z.of_nat (length j)) js)
    with (map (fun j : list Z => Z.of_nat (length j)) (j :: js)) in Hin.
  apply in_map_iff in Hin as (ring & Hlen & Hring). eauto.
Qed.

(** X19. [get_largest_ring_size] is 0 for a molecule without rings;
    otherwise it is the number of atoms of one of the molecule's rings
    and no ring of the molecule has more atoms. *)
Theorem X19_largest_ring_size (molecule : Mol) :
  (AtomRings molecule = [] -> get_largest_ring_size Mol AtomRings molecule = 0) /\
  (forall ring, In ring (AtomRings molecule) ->
     Z.of_nat (length ring) <= get_largest_ring_size Mol AtomRings molecule) /\
  (AtomRings molecule <> [] ->
     exists ring, In ring (AtomRings molecule) /\
                  get_largest_ring_size Mol AtomRings molecule = Z.of_nat (length ring)).
Proof.
  split; [|split].
  - intros Hnone. unfold get_largest_ring_size. rewrite Hnone. reflexivity.
  - apply largest_ring_size_bound.
  - apply largest_ring_size_attained.
Qed.

(** X20. [penalized_logp] is logP minus the SA score minus the ring
    penalty [max(largest ring size - 6, 0)].  The penalty vanishes when
    no ring has more than six atoms, so that the value is then logP minus
    the SA score; a ring of more than six atoms costs at least its size
    minus six; and the value never exceeds logP minus the SA score. *)
Theorem X20_penalized_logp (molecule : Mol) :
  let largest := get_largest_ring_size Mol AtomRings molecule in
  let plain := (MolLogP molecule - calculateScore molecule)%Q in
  let value := penalized_logp Mol AtomRings MolLogP calculateScore molecule in
  (value == plain - inject_Z (Z.max (largest - 6) 0))%Q /\
  (value <= plain)%Q /\
  (Forall (fun ring => (length ring <= 6)%nat) (AtomRings molecule) -> (value == plain)%Q) /\
  (forall ring, In ring (AtomRings molecule) ->
     (value <= plain - inject_Z (Z.of_nat (length ring) - 6))%Q).
Proof.
  intros largest plain value.
  assert (Hvalue : (value == plain - inject_Z (Z.max (largest - 6) 0))%Q).
  { subst value plain largest. unfold penalized_logp. cbv zeta.
    rewrite py_max_int_max. reflexivity. }
  split; [exact Hvalue|]. split; [|split].
  - rewrite Hvalue. assert (0 <= inject_Z (Z.max (largest - 6) 0))%Q.
    { change 0%Q with (inject_Z 0). rewrite <- Zle_Qle. lia. }
    lra.
  - intros Hsmall. rewrite Hvalue.
    assert (Hle : largest <= 6).
    { destruct (AtomRings molecule) as [|j js] eqn:Hrings.
      - subst largest. unfold get_largest_ring_size. rewrite Hrings. lia.
      - destruct (largest_ring_size_attained molecule) as (ring & Hring & Hlargest);
          [rewrite Hrings; discriminate|].
        rewrite Hrings in Hring. rewrite Forall_forall in Hsmall.
        apply list_elem_of_In, Hsmall in Hring. subst largest. lia. }
    replace (Z.max (largest - 6) 0) with 0 by lia. unfold inject_Z. ring.
  - intros ring Hring. rewrite Hvalue.
    pose proof (largest_ring_size_bound molecule ring Hring) as Hbound.
    assert (inject_Z (Z.of_nat (length ring) - 6) <= inject_Z (Z.max (largest - 6) 0))%Q.
    { rewrite <- Zle_Qle. subst largest. lia. }
    lra.
Qed.

End MoleculeProperties.

(** ** The further properties at concrete stores *)

Lemma warm_store_reachable (b : Q) : reachable npower_int (warm_store b).
Proof.
  apply (reachable_step npower_int _ (Add (marked 3 3) 3 0.99%Q)).
  apply (reachable_step npower_int _ (Add (marked 2 2) 3 0.99%Q)).
  apply (reachable_step npower_int _ (Add (marked 1 1) 3 0.99%Q)).
  apply (reachable_init npower_int 4 1 b 0.001); [lia | reflexivity].
Qed.

Lemma uniform_store_ring_inv : ring_inv uniform_store.
Proof. ring_inv_by_evaluation. Qed.

Lemma npower_int_zero_exponent (x : Q) : npower_int x 0%Q = Some 1%Q.
Proof. unfold npower_int. cbn. rewrite andb_false_r. reflexivity. Qed.

Lemma X1_add_returns_witness :
  reachable npower_int (warm_store 0.4) /\
  fst (add (marked 9 9) (-1) 0.99 (warm_store 0.4)) = Ok tt.
Proof.
  split; [exact (warm_store_reachable 0.4)|].
  apply (X1_add_returns npower_int (warm_store 0.4) (marked 9 9) (-1) 0.99).
  exact (warm_store_reachable 0.4).
Defined.

Lemma X2_reachable_shape_witness :
  reachable npower_int (warm_store 0.4) /\
  Z.of_nat (size (warm_store 0.4)) <= capacity (warm_store 0.4) /\
  Forall is_Some (buffer (warm_store 0.4)).
Proof.
  split; [exact (warm_store_reachable 0.4)|].
  destruct (X2_reachable_shape npower_int (warm_store 0.4) (warm_store_reachable 0.4))
    as (Hsize & _ & _ & _ & Hsome & _).
  split; [exact Hsize | exact Hsome].
Defined.

Lemma X3_other_n_step_stalls_witness :
  (2 <= length (n_step_buffer pending_store))%nat /\
  Forall (fun c : Transition nat nat * Z * Q => snd (fst c) <> 3)
         [(marked 3 3, 1, 0.99%Q); (marked 4 4, 2, 0.99%Q); (marked 5 5, 0, 0.99%Q)] /\
  buffer (add_each [(marked 3 3, 1, 0.99%Q); (marked 4 4, 2, 0.99%Q); (marked 5 5, 0, 0.99%Q)]
                   pending_store) = [].
Proof.
  assert (Hlen : (2 <= length (n_step_buffer pending_store))%nat) by (vm_compute; lia).
  assert (Hall : Forall (fun c : Transition nat nat * Z * Q => snd (fst c) <> 3)
                   [(marked 3 3, 1, 0.99%Q); (marked 4 4, 2, 0.99%Q); (marked 5 5, 0, 0.99%Q)]).
  { repeat constructor; discriminate. }
  split; [exact Hlen|]. split; [exact Hall|].
  destruct (X3_other_n_step_stalls pending_store _ Hlen Hall) as (Hbuf & _).
  exact Hbuf.
Defined.

Lemma X4_cursor_after_commits_witness :
  ring_inv (warm_store 0.4) /\
  (2 <= length (n_step_buffer (warm_store 0.4)))%nat /\
  pos (add_each [(marked 4 4, 3, 0.99%Q); (marked 5 5, 3, 0.99%Q); (marked 6 6, 3, 0.99%Q);
                 (marked 7 7, 3, 0.99%Q); (marked 8 8, 3, 0.99%Q)] (warm_store 0.4)) = 2 /\
  size (add_each [(marked 4 4, 3, 0.99%Q); (marked 5 5, 3, 0.99%Q); (marked 6 6, 3, 0.99%Q);
                  (marked 7 7, 3, 0.99%Q); (marked 8 8, 3, 0.99%Q)] (warm_store 0.4)) = 4%nat.
Proof.
  assert (Hlen : (2 <= length (n_step_buffer (warm_store 0.4)))%nat) by (vm_compute; lia).
  split; [exact (warm_store_ring_inv 0.4)|]. split; [exact Hlen|].
  destruct (X4_cursor_after_commits (warm_store 0.4)
              [(marked 4 4, 3, 0.99%Q); (marked 5 5, 3, 0.99%Q); (marked 6 6, 3, 0.99%Q);
               (marked 7 7, 3, 0.99%Q); (marked 8 8, 3, 0.99%Q)]
              (warm_store_ring_inv 0.4) Hlen ltac:(repeat constructor))
    as (Hpos & Hsize & _).
  split; [exact Hpos | exact Hsize].
Defined.

Lemma X6_priorities_without_updates_witness :
  init 4 1 1 0.001 = Ok (fresh_store 1) /\
  Forall no_update plain_calls /\
  priorities (run npower_int (fresh_store 1) plain_calls) = [1%Q; 1%Q; 0%Q; 0%Q].
Proof.
  assert (Hops : Forall no_update plain_calls) by (repeat constructor).
  split; [reflexivity|]. split; [exact Hops|].
  destruct (X6_priorities_without_updates npower_int 4 1 1 0.001 (fresh_store 1) plain_calls
              ltac:(lia) eq_refl Hops) as [_ Hprios].
  exact Hprios.
Defined.

Lemma X8_sample_degenerate_batch_witness :
  size (warm_store 0.4) <> 0%nat /\
  sample npower_int (-3) [] (warm_store 0.4) = (Raise ValueError, warm_store 0.4).
Proof.
  assert (Hne : size (warm_store 0.4) <> 0%nat) by discriminate.
  split; [exact Hne|].
  apply (X8_sample_degenerate_batch npower_int (-3) [] (warm_store 0.4) Hne).
  left. lia.
Defined.

Lemma X9_sample_result_shape_witness :
  size (warm_store 1) <> 0%nat /\
  exists samples weights s',
    sample npower_int 2 [0; 0] (warm_store 1) = (Ok (samples, [0; 0], weights), s') /\
    length samples = 2%nat /\ length weights = 2%nat.
Proof.
  assert (Hne : size (warm_store 1) <> 0%nat) by discriminate.
  split; [exact Hne|].
  assert (Hrun : exists samples weights s',
            sample npower_int 2 [0; 0] (warm_store 1) = (Ok (samples, [0; 0], weights), s')).
  { vm_compute. eexists _, _, _. reflexivity. }
  destruct Hrun as (samples & weights & s' & Hrun).
  exists samples, weights, s'. split; [exact Hrun|].
  destruct (X9_sample_result_shape npower_int 2 [0; 0] (warm_store 1)
              samples [0; 0] weights s' Hne Hrun) as (_ & _ & _ & _ & Hs & Hw & _).
  split; [exact Hs | exact Hw].
Defined.

Lemma X12_update_priorities_closed_form_witness :
  ring_inv (warm_store 0.4) /\
  Forall (fun c : Z * Q => ~ out_of_bounds (warm_store 0.4) (fst c))
         (zip [0; -1; 0] [2%Q; 5%Q; 3%Q]) /\
  priorities (snd (update_priorities [0; -1; 0] [2%Q; 5%Q; 3%Q] (warm_store 0.4))) =
    [3%Q; 0%Q; 0%Q; 5%Q] /\
  max_priority (snd (update_priorities [0; -1; 0] [2%Q; 5%Q; 3%Q] (warm_store 0.4))) = 5%Q.
Proof.
  assert (Hall : Forall (fun c : Z * Q => ~ out_of_bounds (warm_store 0.4) (fst c))
                        (zip [0; -1; 0] [2%Q; 5%Q; 3%Q])).
  { repeat constructor; unfold out_of_bounds;
      change (capacity (warm_store 0.4)) with 4; cbn [fst]; lia. }
  split; [exact (warm_store_ring_inv 0.4)|]. split; [exact Hall|].
  destruct (X12_update_priorities_closed_form [0; -1; 0] [2%Q; 5%Q; 3%Q] (warm_store 0.4)
              (warm_store_ring_inv 0.4) Hall) as [Hform _].
  rewrite Hform. split; reflexivity.
Defined.

Lemma X13_update_priorities_partial_witness :
  ring_inv (warm_store 0.4) /\
  out_of_bounds (warm_store 0.4) 4 /\
  fst (update_priorities [1; 4; 2] [5%Q; 6%Q; 7%Q] (warm_store 0.4)) = Raise IndexError /\
  priorities (snd (update_priorities [1; 4; 2] [5%Q; 6%Q; 7%Q] (warm_store 0.4))) =
    [1%Q; 5%Q; 0%Q; 0%Q].
Proof.
  assert (Hbad : out_of_bounds (warm_store 0.4) 4).
  { unfold out_of_bounds. change (capacity (warm_store 0.4)) with 4. lia. }
  assert (Hgood : Forall (fun i => ~ out_of_bounds (warm_store 0.4) i) [1]).
  { repeat constructor. unfold out_of_bounds.
    change (capacity (warm_store 0.4)) with 4. lia. }
  split; [exact (warm_store_ring_inv 0.4)|]. split; [exact Hbad|].
  destruct (X13_update_priorities_partial [1] [2] [5%Q] [7%Q] 4 6%Q (warm_store 0.4)
              (warm_store_ring_inv 0.4) eq_refl Hgood Hbad) as [_ Hrun].
  cbn [app] in Hrun. rewrite Hrun. split; reflexivity.
Defined.

Lemma X14_sample_all_zero_priorities_witness :
  size zeroed_store <> 0%nat /\
  npower_int 0%Q (alpha zeroed_store) = Some 0%Q /\
  sample npower_int 2 [0; 0] zeroed_store = (Raise ValueError, zeroed_store).
Proof.
  assert (Hne : size zeroed_store <> 0%nat) by discriminate.
  assert (Hpow : npower_int 0%Q (alpha zeroed_store) = Some 0%Q) by reflexivity.
  split; [exact Hne|]. split; [exact Hpow|].
  destruct (X14_sample_all_zero_priorities npower_int 2 [0; 0] zeroed_store Hne Hpow)
    as [_ Hrun]; [|exact Hrun].
  intros i Hi. change (size zeroed_store) with 1%nat in Hi.
  destruct i as [|i]; [reflexivity | lia].
Defined.

Lemma X15_alpha_zero_uniform_witness :
  ring_inv uniform_store /\
  alpha uniform_store = 0%Q /\
  size uniform_store = 2%nat /\
  priorities uniform_store = [1%Q; 7%Q; 0%Q; 0%Q] /\
  exists total : Q,
    (total == 2)%Q /\
    sampling_probs npower_int uniform_store = [Some (1 / total)%Q; Some (1 / total)%Q].
Proof.
  split; [exact uniform_store_ring_inv|]. split; [reflexivity|].
  split; [reflexivity|]. split; [reflexivity|].
  destruct (X15_alpha_zero_uniform npower_int uniform_store uniform_store_ring_inv
              eq_refl npower_int_zero_exponent) as (total & Htotal & Hprobs & Hdiv).
  exists total. split; [exact Htotal|].
  rewrite Hprobs, Hdiv by discriminate. reflexivity.
Defined.

Lemma X16_replay_buffer_fifo_witness :
  ReplayBuffer.init (State := nat) (Action := nat) 2 = Ok (ReplayBuffer.mkStore 2 []) /\
  ReplayBuffer.buffer plain_store = [marked 2 2; marked 3 3] /\
  ReplayBuffer.len plain_store = 2%nat.
Proof.
  split; [reflexivity|].
  destruct (X16_replay_buffer_fifo 2 (ReplayBuffer.mkStore 2 [])
              [marked 1 1; marked 2 2; marked 3 3] eq_refl) as [Hbuf Hlen].
  split; [exact Hbuf | exact Hlen].
Defined.

Lemma X17_replay_buffer_sample_too_large_witness :
  Z.of_nat (ReplayBuffer.len plain_store) < 3 /\
  ReplayBuffer.sample 3 [0; 1; 1] plain_store = (Raise ValueError, plain_store).
Proof.
  assert (Hlen : Z.of_nat (ReplayBuffer.len plain_store) < 3) by (vm_compute; reflexivity).
  split; [exact Hlen|].
  apply (X17_replay_buffer_sample_too_large 3 [0; 1; 1] plain_store). right. exact Hlen.
Defined.

Lemma X18_replay_buffer_sample_columns_witness :
  2 <= Z.of_nat (ReplayBuffer.len plain_store) /\
  ReplayBuffer.possible_sample (ReplayBuffer.len plain_store) 2 [1; 0] /\
  ReplayBuffer.sample 2 [1; 0] plain_store =
    (Ok ([3%nat; 2%nat], [103%nat; 102%nat], [3%Q; 2%Q], [4%nat; 3%nat], [false; false]),
     plain_store).
Proof.
  assert (Hfit : 2 <= Z.of_nat (ReplayBuffer.len plain_store)) by (vm_compute; discriminate).
  assert (Hdraw : ReplayBuffer.possible_sample (ReplayBuffer.len plain_store) 2 [1; 0]).
  { split; [reflexivity|]. split.
    - apply NoDup_cons. split; [|apply NoDup_singleton].
      intros H. apply list_elem_of_singleton in H. discriminate.
    - change (ReplayBuffer.len plain_store) with 2%nat. repeat constructor; lia. }
  split; [exact Hfit|]. split; [exact Hdraw|].
  destruct (X18_replay_buffer_sample_columns 2 [1; 0] plain_store Hfit Hdraw)
    as (rows & Hrows & _ & Hrun).
  rewrite Hrun.
  inversion Hrows as [|i0 r0 l0 rs0 H0 Hrest]; subst.
  inversion Hrest as [|i1 r1 l1 rs1 H1 Hnil]; subst.
  inversion Hnil; subst.
  vm_compute in H0, H1. injection H0 as <-. injection H1 as <-. reflexivity.
Defined.

Lemma X21_capacity_zero_add_raises_witness :
  init 0 1 0.4 0.001 = Ok null_store /\
  add (marked 1 1) 1 0.99 null_store =
    (Raise IndexError, set_n_step_buffer [marked 1 1] null_store).
Proof.
  split; [reflexivity|].
  apply (X21_capacity_zero_add_raises null_store (marked 1 1) 1 0.99); reflexivity.
Defined.
